(** * UA-Gui: the listing, selection and command-building core of
    [ua_gui_manager.py], as a shallow embedding.

    Conventions of the embedding:
    - Python [str] is [string], holding the UTF-8 bytes of the text;
      comparison of strings is the byte order of [String.compare], which
      for UTF-8 text is Python's code-point order.
    - [os.path] is [posixpath] ([join], [basename], [dirname]).
    - A raised exception is a value of [exn]; a call that can raise returns
      a [result].
    - The file system is read through the record [filesystem]; the Tk list
      box is the list of its labels, the Treeview is a forest of [node]s
      addressed by index path.
    - Message boxes, prints and process launches are recorded as [event]s. *)

From Stdlib Require Import String Ascii List ZArith Lia Bool.
From Stdlib Require Import Sorted Permutation.
Import ListNotations.
Open Scope string_scope.

Set Implicit Arguments.

(** ** Python strings *)

Module PyStr.

Definition nl : ascii := ascii_of_nat 10.
Definition slash : ascii := "/"%char.

(** [c.lower()] on the ASCII letters. The bytes of the other characters
    are left alone: the lowered text is only searched for the ASCII words
    of line 274, and the only characters whose lower case holds an ASCII
    letter are U+212A (to [k]) and U+0130 (to [i] followed by U+0307),
    neither of which can complete one of these words. *)
Definition lower_char (c : ascii) : ascii :=
  let n := nat_of_ascii c in
  if (65 <=? n)%nat && (n <=? 90)%nat then ascii_of_nat (n + 32) else c.

(** [s.lower()] *)
Fixpoint lower (s : string) : string :=
  match s with
  | EmptyString => EmptyString
  | String c r => String (lower_char c) (lower r)
  end.

(** [sub in s] *)
Fixpoint contains (sub s : string) : bool :=
  prefix sub s ||
  match s with
  | EmptyString => false
  | String _ r => contains sub r
  end.

(** [s.startswith(p)] *)
Definition startswith (s p : string) : bool := prefix p s.

(** [s.endswith(suf)] *)
Definition endswith (s suf : string) : bool :=
  let n := String.length s in
  let m := String.length suf in
  (m <=? n)%nat && (substring (n - m) m s =? suf).

(** Strings hold the UTF-8 bytes of the Python text. The white space that
    [str.strip()] removes is the characters for which [str.isspace()]
    holds: U+0009-U+000D, U+001C-U+0020, U+0085, U+00A0, U+1680,
    U+2000-U+200A, U+2028, U+2029, U+202F, U+205F and U+3000. *)

(** The white space characters of one byte: U+0009-U+000D, U+001C-U+0020. *)
Definition is_space (c : ascii) : bool :=
  let n := nat_of_ascii c in
  ((9 <=? n)%nat && (n <=? 13)%nat) || ((28 <=? n)%nat && (n <=? 32)%nat).

(** Those of two bytes: U+0085 (C2 85) and U+00A0 (C2 A0). *)
Definition is_space2 (c1 c2 : ascii) : bool :=
  (nat_of_ascii c1 =? 194)%nat
  && ((nat_of_ascii c2 =? 133)%nat || (nat_of_ascii c2 =? 160)%nat).

(** Those of three bytes: U+1680 (E1 9A 80), U+2000-U+200A (E2 80 80 to
    E2 80 8A), U+2028, U+2029, U+202F (E2 80 A8, A9, AF), U+205F
    (E2 81 9F) and U+3000 (E3 80 80). *)
Definition is_space3 (c1 c2 c3 : ascii) : bool :=
  let n1 := nat_of_ascii c1 in
  let n2 := nat_of_ascii c2 in
  let n3 := nat_of_ascii c3 in
  ((n1 =? 225)%nat && (n2 =? 154)%nat && (n3 =? 128)%nat)
  || ((n1 =? 226)%nat && (n2 =? 128)%nat
      && (((128 <=? n3)%nat && (n3 <=? 138)%nat)
          || (n3 =? 168)%nat || (n3 =? 169)%nat || (n3 =? 175)%nat))
  || ((n1 =? 226)%nat && (n2 =? 129)%nat && (n3 =? 159)%nat)
  || ((n1 =? 227)%nat && (n2 =? 128)%nat && (n3 =? 128)%nat).

(** [s.lstrip()] *)
Fixpoint lstrip (s : string) : string :=
  match s with
  | EmptyString => EmptyString
  | String c1 r1 =>
      if is_space c1 then lstrip r1
      else
        match r1 with
        | EmptyString => s
        | String c2 r2 =>
            if is_space2 c1 c2 then lstrip r2
            else
              match r2 with
              | EmptyString => s
              | String c3 r3 => if is_space3 c1 c2 c3 then lstrip r3 else s
              end
        end
  end.

(** [s.isspace()] or [s == ''] : [s] is made of white space only. *)
Fixpoint blank (s : string) : bool :=
  match s with
  | EmptyString => true
  | String c1 r1 =>
      if is_space c1 then blank r1
      else
        match r1 with
        | EmptyString => false
        | String c2 r2 =>
            if is_space2 c1 c2 then blank r2
            else
              match r2 with
              | EmptyString => false
              | String c3 r3 => is_space3 c1 c2 c3 && blank r3
              end
        end
  end.

(** [s.rstrip()]: [s] up to the point from which only white space
    follows. *)
Fixpoint rstrip (s : string) : string :=
  match s with
  | EmptyString => EmptyString
  | String c r => if blank s then EmptyString else String c (rstrip r)
  end.

(** [s.strip()] *)
Definition strip (s : string) : string := rstrip (lstrip s).

(** [s.split('\n')] *)
Fixpoint split_lines (s : string) : list string :=
  match s with
  | EmptyString => [EmptyString]
  | String c r =>
      if Ascii.eqb c nl then EmptyString :: split_lines r
      else match split_lines r with
           | h :: t => String c h :: t
           | [] => [String c EmptyString]
           end
  end.

(** [sep.join(l)] is [String.concat sep l]. *)
Definition join_with (sep : string) (l : list string) : string :=
  String.concat sep l.

(** Truth value of a string: [bool(s)]. *)
Definition truthy (s : string) : bool :=
  match s with EmptyString => false | _ => true end.

End PyStr.

(** ** [posixpath] *)

Module PosixPath.
Import PyStr.

Fixpoint has_slash (s : string) : bool :=
  match s with
  | EmptyString => false
  | String c r => Ascii.eqb c slash || has_slash r
  end.

Definition ends_with_slash (s : string) : bool := endswith s "/".

(** [os.path.join(a, b)] *)
Definition join (a b : string) : string :=
  if startswith b "/" then b
  else if negb (truthy a) || ends_with_slash a then a ++ b
  else a ++ "/" ++ b.

(** [os.path.basename(p)]: what follows the last slash. *)
Fixpoint basename (p : string) : string :=
  match p with
  | EmptyString => EmptyString
  | String c r =>
      if has_slash r then basename r
      else if Ascii.eqb c slash then r else p
  end.

(** [p[:p.rfind('/') + 1]] *)
Fixpoint head_upto_last_slash (p : string) : string :=
  match p with
  | EmptyString => EmptyString
  | String c r =>
      if has_slash r then String c (head_upto_last_slash r)
      else if Ascii.eqb c slash then "/" else EmptyString
  end.

Fixpoint all_slashes (s : string) : bool :=
  match s with
  | EmptyString => true
  | String c r => Ascii.eqb c slash && all_slashes r
  end.

Fixpoint rstrip_slash (s : string) : string :=
  match s with
  | EmptyString => EmptyString
  | String c r =>
      match rstrip_slash r with
      | EmptyString =>
          if Ascii.eqb c slash then EmptyString else String c EmptyString
      | r' => String c r'
      end
  end.

(** [os.path.dirname(p)] *)
Definition dirname (p : string) : string :=
  let head := head_upto_last_slash p in
  if truthy head && negb (all_slashes head) then rstrip_slash head else head.

End PosixPath.

(** ** Exceptions and the file system *)

Inductive exn : Type :=
| PermissionError (msg : string)
| FileNotFoundError (msg : string)
| OSError (msg : string)          (* NotADirectoryError and the other OSErrors *)
| IndexError (msg : string)
| OtherException (msg : string).  (* any other subclass of Exception *)

(** [str(e)] *)
Definition exn_str (e : exn) : string :=
  match e with
  | PermissionError m | FileNotFoundError m | OSError m | IndexError m | OtherException m => m
  end.

Definition is_PermissionError (e : exn) : bool :=
  match e with PermissionError _ => true | _ => false end.

Definition is_FileNotFoundError (e : exn) : bool :=
  match e with FileNotFoundError _ => true | _ => false end.

Inductive result (A : Type) : Type :=
| Ok (a : A)
| Raise (e : exn).
Arguments Ok {A} a.
Arguments Raise {A} e.

(** What the program observes of the file system. *)
Record filesystem : Type := {
  exists_ : string -> bool;                 (* os.path.exists *)
  isdir : string -> bool;                   (* os.path.isdir *)
  isfile : string -> bool;                  (* os.path.isfile *)
  listdir : string -> result (list string); (* os.listdir *)
  read_text : string -> result string       (* open(p, 'r').read() *)
}.

(** ** [list.sort()] *)

Section Sort.
Variable A : Type.
Variable leb : A -> A -> bool.

Fixpoint insert_sorted (x : A) (l : list A) : list A :=
  match l with
  | [] => [x]
  | y :: r => if leb x y then x :: l else y :: insert_sorted x r
  end.

Fixpoint sort (l : list A) : list A :=
  match l with
  | [] => []
  | x :: r => insert_sorted x (sort r)
  end.
End Sort.

(** Order of Python tuples [(str, str)]: first components, then second. *)
Definition pair_leb (p q : string * string) : bool :=
  String.ltb (fst p) (fst q) ||
  ((fst p =? fst q) && String.leb (snd p) (snd q)).

Import PyStr PosixPath.

(** ** UAConfig *)

(** The parsed INI file: sections of key/value pairs. *)
Definition UAConfig : Type := list (string * list (string * string)).

Fixpoint assoc (V : Type) (k : string) (l : list (string * V)) : option V :=
  match l with
  | [] => None
  | (k', v) :: r => if k' =? k then Some v else assoc k r
  end.

(** [UAConfig.get(section, key)], with its fallback ['']. The table holds
    each option's text as [get] returns it, that is after [configparser]
    has interpolated the stored text: a file whose stored text makes the
    interpolation raise (a percent sign that starts neither [%%] nor
    [%(name)s]) has no table, and the code that reads such an option is
    left by the exception of [get] before anything below applies. *)
Definition config_get (cfg : UAConfig) (section key : string) : string :=
  match assoc section cfg with
  | Some opts => match assoc key opts with Some v => v | None => "" end
  | None => ""
  end.

(** ** Observable effects *)

Inductive event : Type :=
| ShowWarning (title msg : string)       (* messagebox.showwarning *)
| ShowError (title msg : string)         (* messagebox.showerror *)
| ShowInfo (title msg : string)          (* messagebox.showinfo *)
| Print (msg : string)                   (* print *)
| AskString (title prompt initial : string)  (* simpledialog.askstring *)
| OsRename (src dst : string)            (* os.rename *)
| OpenArgsDialog (file_path : string)    (* UAArgsDialog(...) *)
| Popen (argv : list string)             (* subprocess.Popen *)
| Run (argv : list string).              (* subprocess.run *)

(** ** FilterPanel: the directory tree *)

(** A Treeview item: its text, its values and its child items. *)
#[warnings="-register-all"]
Inductive node : Type :=
| Node (text : string) (values : list string) (children : list node).

Definition node_text (n : node) : string :=
  match n with Node t _ _ => t end.
Definition node_values (n : node) : list string :=
  match n with Node _ v _ => v end.
Definition node_children (n : node) : list node :=
  match n with Node _ _ c => c end.

(** [self.dir_tree.insert(node, "end", text="Loading...")] *)
Definition placeholder : node := Node "Loading..." [] [].

(** Lines 149-153: does [item_path] have a subdirectory? A
    [PermissionError] is swallowed, any other exception propagates. *)
Definition has_subdirectories (fs : filesystem) (item_path : string)
  : result bool :=
  match listdir fs item_path with
  | Ok xs => Ok (existsb (fun x => isdir fs (join item_path x)) xs)
  | Raise e => if is_PermissionError e then Ok false else Raise e
  end.

(** The loop of lines 146-153 over the sorted [items]: the nodes it
    inserted, and the exception that ended it, if any. *)
Fixpoint insert_items (fs : filesystem) (items : list (string * string))
  : list node * option exn :=
  match items with
  | [] => ([], None)
  | (item, item_path) :: rest =>
      match has_subdirectories fs item_path with
      | Ok b =>
          let (ns, ex) := insert_items fs rest in
          (Node item [item_path] (if b then [placeholder] else []) :: ns, ex)
      | Raise e => ([Node item [item_path] []], Some e)
      end
  end.

(** Lines 139-143: the [(item, item_path)] pairs of the subdirectories. *)
Definition subdir_items (fs : filesystem) (path : string)
  (names : list string) : list (string * string) :=
  map (fun item => (item, join path item))
      (filter (fun item => isdir fs (join path item)) names).

(** [FilterPanel.populate_tree(parent, path)]: the nodes appended under
    [parent], and the exception that escaped, if any. *)
Definition populate_tree (fs : filesystem) (path : string)
  : list node * option exn :=
  match listdir fs path with
  | Ok names => insert_items fs (sort pair_leb (subdir_items fs path names))
  | Raise e => ([], if is_PermissionError e then None else Some e)
  end.

(** Items are addressed by index path from the roots. *)
Fixpoint lookup (forest : list node) (p : list nat) : option node :=
  match p with
  | [] => None
  | i :: p' =>
      match nth_error forest i with
      | None => None
      | Some n =>
          match p' with
          | [] => Some n
          | _ => lookup (node_children n) p'
          end
      end
  end.

Fixpoint replace_nth (A : Type) (i : nat) (x : A) (l : list A) : list A :=
  match l, i with
  | [], _ => []
  | _ :: r, O => x :: r
  | y :: r, S j => y :: replace_nth j x r
  end.

(** Replace the item at index path [p] by [n']. *)
Fixpoint replace_at (forest : list node) (p : list nat) (n' : node)
  : list node :=
  match p with
  | [] => forest
  | i :: p' =>
      match nth_error forest i with
      | None => forest
      | Some (Node t v ch) =>
          match p' with
          | [] => replace_nth i n' forest
          | _ => replace_nth i (Node t v (replace_at ch p' n')) forest
          end
      end
  end.

Record FilterPanel : Type := {
  current_path_var : string;
  missing_torrents_var : bool;
  dir_tree : list node;
  (* [self.dir_tree.selection()[0]], when the selection is not empty *)
  tree_selection : option (list nat)
}.

(** [FilterPanel.refresh_directory_tree()] *)
Definition refresh_directory_tree (fs : filesystem) (fp : FilterPanel)
  : FilterPanel * option exn :=
  let base_path := current_path_var fp in
  let cleared := {| current_path_var := current_path_var fp;
                    missing_torrents_var := missing_torrents_var fp;
                    dir_tree := [];
                    tree_selection := None |} in
  if exists_ fs base_path then
    let (nodes, ex) := populate_tree fs base_path in
    ({| current_path_var := current_path_var fp;
        missing_torrents_var := missing_torrents_var fp;
        dir_tree := nodes;
        tree_selection := None |}, ex)
  else (cleared, None).

(** ** FilePanel: the listing *)

Record FilePanel : Type := {
  current_directory : option string;   (* unset until the first update *)
  file_listbox : list string;          (* the labels shown *)
  curselection : list Z;               (* [self.file_listbox.curselection()] *)
  current_files : list string
}.

(** One round of lines 248-249 / 281-282: a label goes into the list box
    and its path into [current_files]. *)
Definition add_entry (label path : string) (p : FilePanel) : FilePanel :=
  {| current_directory := current_directory p;
     file_listbox := (file_listbox p ++ [label])%list;
     curselection := curselection p;
     current_files := (current_files p ++ [path])%list |}.

(** Line 274: ['missing' in line.lower() and 'torrent' in line.lower()] *)
Definition is_missing_line (line : string) : bool :=
  contains "missing" (lower line) && contains "torrent" (lower line).

(** Lines 272-276 for one file's [content]. *)
Definition missing_in (content : string) : list string :=
  map strip (filter is_missing_line (split_lines content)).

(** Lines 266-278: the lines collected from [log_files], and the prints
    for the files that could not be read. *)
Fixpoint scan_logs (fs : filesystem) (logs_dir : string)
  (log_files : list string) : list string * list event :=
  match log_files with
  | [] => ([], [])
  | log_file :: rest =>
      let (found, evs) := scan_logs fs logs_dir rest in
      match read_text fs (join logs_dir log_file) with
      | Ok content => ((missing_in content ++ found)%list, evs)
      | Raise e =>
          (found,
           Print ("Error reading log file " ++ log_file ++ ": " ++ exn_str e)
           :: evs)
      end
  end.

(** [FilePanel.load_missing_torrents()] *)
Definition load_missing_torrents (fs : filesystem) (cfg : UAConfig)
  (p : FilePanel) : FilePanel * list event :=
  let logs_dir := config_get cfg "PATHS" "logs_dir" in
  if negb (exists_ fs logs_dir) then
    (p, [ShowWarning "Warning" ("Logs directory not found: " ++ logs_dir)])
  else
    match listdir fs logs_dir with
    | Raise e =>
        (p, [ShowError "Error"
               ("Error loading missing torrents: " ++ exn_str e)])
    | Ok names =>
        let log_files := filter (fun f => endswith f ".log") names in
        let (missing_files, evs) := scan_logs fs logs_dir log_files in
        (fold_left
           (fun q missing => add_entry ("[MISSING] " ++ missing) missing q)
           missing_files p,
         evs)
    end.

(** [FilePanel.update_files(directory, show_missing_only)]: the panel
    after the call, the events, and the exception that escaped, if any. *)
Definition update_files (fs : filesystem) (cfg : UAConfig)
  (directory : string) (show_missing_only : bool) (p : FilePanel)
  : FilePanel * list event * option exn :=
  let p0 := {| current_directory := Some directory;
               file_listbox := [];
               curselection := [];
               current_files := [] |} in
  if negb (exists_ fs directory) then (p0, [], None)
  else if show_missing_only then
    let (p1, evs) := load_missing_torrents fs cfg p0 in (p1, evs, None)
  else
    match listdir fs directory with
    | Raise e =>
        if is_PermissionError e then
          (p0, [ShowError "Error"
                  ("Permission denied accessing: " ++ directory)], None)
        else (p0, [], Some e)
    | Ok names =>
        let files :=
          sort String.leb
            (filter (fun item => isfile fs (join directory item)
                                 || isdir fs (join directory item)) names) in
        (fold_left (fun q file => add_entry file (join directory file) q)
           files p0,
         [], None)
    end.

(** [l[i]] on a Python list, negative indices counting from the end. *)
Definition py_getitem (A : Type) (l : list A) (i : Z) : result A :=
  let n := Z.of_nat (List.length l) in
  let j := if (i <? 0)%Z then (i + n)%Z else i in
  if (j <? 0)%Z then Raise (IndexError "list index out of range")
  else match nth_error l (Z.to_nat j) with
       | Some x => Ok x
       | None => Raise (IndexError "list index out of range")
       end.

(** [FilePanel.get_selected_file()] *)
Definition get_selected_file (p : FilePanel) : result (option string) :=
  match curselection p with
  | [] => Ok None
  | index :: _ =>
      if (index <? Z.of_nat (List.length (current_files p)))%Z then
        match py_getitem (current_files p) index with
        | Ok f => Ok (Some f)
        | Raise e => Raise e
        end
      else Ok None
  end.

(** [FilePanel.refresh_files()] *)
Definition refresh_files (fs : filesystem) (cfg : UAConfig) (p : FilePanel)
  : FilePanel * list event * option exn :=
  match current_directory p with
  | Some d => update_files fs cfg d false p
  | None => (p, [], None)
  end.

(** ** The whole window: UploadAssistantGUI *)

Record App : Type := {
  config : UAConfig;
  filter_panel : FilterPanel;
  file_panel : FilePanel;
  status_var : string
}.

(** [UploadAssistantGUI.on_filter_change(selected_path)], which is the
    [on_selection_change] callback handed to the filter panel. *)
Definition on_filter_change (fs : filesystem) (app : App)
  (selected_path : string) : App * list event * option exn :=
  let show_missing := missing_torrents_var (filter_panel app) in
  let '(fp, evs, ex) :=
    update_files fs (config app) selected_path show_missing (file_panel app) in
  match ex with
  | Some e =>
      ({| config := config app; filter_panel := filter_panel app;
          file_panel := fp; status_var := status_var app |}, evs, Some e)
  | None =>
      ({| config := config app; filter_panel := filter_panel app;
          file_panel := fp;
          status_var := "Directory: " ++ selected_path |}, evs, None)
  end.

Definition set_dir_tree (app : App) (forest : list node) : App :=
  {| config := config app;
     filter_panel :=
       {| current_path_var := current_path_var (filter_panel app);
          missing_torrents_var := missing_torrents_var (filter_panel app);
          dir_tree := forest;
          tree_selection := tree_selection (filter_panel app) |};
     file_panel := file_panel app;
     status_var := status_var app |}.

(** Line 169: [len(children) == 1 and text(children[0]) == "Loading..."] *)
Definition only_loading_child (children : list node) : bool :=
  match children with
  | [c] => node_text c =? "Loading..."
  | _ => false
  end.

(** [FilterPanel.on_dir_select(event)] *)
Definition on_dir_select (fs : filesystem) (app : App)
  : App * list event * option exn :=
  match tree_selection (filter_panel app) with
  | None => (app, [], None)
  | Some item =>
      match lookup (dir_tree (filter_panel app)) item with
      | None => (app, [], None)
      | Some (Node text values children) =>
          match values with
          | [] => (app, [], None)
          | selected_path :: _ =>
              let '(app1, evs, ex) := on_filter_change fs app selected_path in
              match ex with
              | Some e => (app1, evs, Some e)
              | None =>
                  (* Expand directory if it hasn't been expanded yet *)
                  if only_loading_child children then
                    let (nodes, ex') := populate_tree fs selected_path in
                    (set_dir_tree app1
                       (replace_at (dir_tree (filter_panel app1)) item
                          (Node text values nodes)),
                     evs, ex')
                  else (app1, evs, None)
              end
          end
      end
  end.

(** ** Argument bags and the arguments dialog *)

(** A value of the argument dictionary: a [bool] or a [str]. *)
Inductive value : Type :=
| VBool (b : bool)
| VStr (s : string).

(** [bool(value)] *)
Definition value_truthy (v : value) : bool :=
  match v with
  | VBool b => b
  | VStr s => truthy s
  end.

(** A Python [dict] with string keys: its items in insertion order. *)
Definition dict (V : Type) : Type := list (string * V).

(** [d[k] = v]: a present key keeps its place, a new key goes last. *)
Fixpoint dict_set (V : Type) (d : dict V) (k : string) (v : V) : dict V :=
  match d with
  | [] => [(k, v)]
  | (k', v') :: r =>
      if k' =? k then (k, v) :: r else (k', v') :: dict_set r k v
  end.

Inductive tkvar : Type :=
| StringVar (s : string)
| BooleanVar (b : bool).

(** Keys of [ua_args] and of [boolean_args] in [create_arg_widgets]. *)
Definition ua_args : list string :=
  ["tmdb"; "imdb"; "mal"; "category"; "type"; "source"; "edition";
   "resolution"; "tag"; "region"; "season"; "episode"].
Definition boolean_args : list string :=
  ["freeleech"; "daily"; "no_dupe"; "skip_imghost"; "personalrelease"].

(** [UAArgsDialog.create_arg_widgets]: the [arg_vars] it fills. *)
Definition create_arg_widgets (cfg : UAConfig) : dict tkvar :=
  let text_vars :=
    fold_left
      (fun vars arg_key =>
         dict_set vars arg_key (StringVar (config_get cfg "UA_ARGS" arg_key)))
      ua_args [] in
  fold_left
    (fun vars arg_key =>
       dict_set vars arg_key
         (BooleanVar (config_get cfg "UA_ARGS" arg_key =? "true")))
    boolean_args text_vars.

Record UAArgsDialog : Type := {
  dialog_file_path : string;
  arg_vars : dict tkvar;
  dialog_result : option (dict value)
}.

(** [UAArgsDialog(parent, config, file_path)]: the constructor builds the
    widgets and returns; it does not wait for the window. *)
Definition UAArgsDialog_init (cfg : UAConfig) (file_path : string)
  : UAArgsDialog :=
  {| dialog_file_path := file_path;
     arg_vars := create_arg_widgets cfg;
     dialog_result := None |}.

(** One round of the loop of lines 512-518 of [UAArgsDialog.launch]. *)
Definition launch_step (res : dict value) (kv : string * tkvar)
  : dict value :=
  let (key, var) := kv in
  match var with
  | BooleanVar b => dict_set res key (VBool b)
  | StringVar s =>
      let value := strip s in
      if truthy value then dict_set res key (VStr value) else res
  end.

(** Lines 511-518 of [UAArgsDialog.launch]: the result dictionary. *)
Definition launch_result (vars : dict tkvar) : dict value :=
  fold_left launch_step vars [].





(** ** Command building and launch *)

(** One round of the loop of lines 350-356. *)
Definition add_arg (cmd : list string) (kv : string * value) : list string :=
  let (key, value) := kv in
  if value_truthy value then
    match value with
    | VBool b => if b then app cmd ["--" ++ key] else cmd
    | VStr s => app cmd ["--" ++ key; s]
    end
  else cmd.

(** Lines 346-356: the command list. *)
Definition build_cmd (ua_path file_path : string) (args : dict value)
  : list string :=
  fold_left add_arg args [ua_path; file_path].

(** What the host does when asked to start a process or rename a file. *)
Record platform : Type := {
  os_name_nt : bool;                                  (* os.name == 'nt' *)
  popen : list string -> result unit;                 (* subprocess.Popen *)
  run : list string -> result unit;                   (* subprocess.run *)
  os_rename : filesystem -> string -> string -> result filesystem
}.

Definition dquote : string := String (ascii_of_nat 34) EmptyString.

Definition pause_suffix : string :=
  "; read -p " ++ dquote ++ "Press Enter to continue..." ++ dquote.

Definition terminals : list string :=
  ["gnome-terminal"; "xterm"; "konsole"; "terminator"].

Definition launch_failed (e : exn) : event :=
  ShowError "Error" ("Failed to launch upload assistant: " ++ exn_str e).

(** Lines 365-376: the terminal loop with its [else] branch. *)
Fixpoint try_terminals (pf : platform) (ts : list string)
  (cmd : list string) : list event :=
  match ts with
  | [] =>
      match run pf cmd with
      | Ok _ => [Run cmd]
      | Raise e => [Run cmd; launch_failed e]
      end
  | terminal :: rest =>
      let argv :=
        if terminal =? "gnome-terminal"
        then [terminal; "--"; "bash"; "-c"; join_with " " cmd ++ pause_suffix]
        else [terminal; "-e"; "bash"; "-c"; join_with " " cmd ++ pause_suffix]
      in
      match popen pf argv with
      | Ok _ => [Popen argv]
      | Raise e =>
          if is_FileNotFoundError e
          then Popen argv :: try_terminals pf rest cmd
          else [Popen argv; launch_failed e]
      end
  end.

(** [FilePanel.execute_upload_assistant(file_path, args)] *)
Definition execute_upload_assistant (pf : platform) (cfg : UAConfig)
  (file_path : string) (args : dict value) : list event :=
  let ua_path := config_get cfg "PATHS" "upload_assistant_path" in
  let cmd := build_cmd ua_path file_path args in
  if os_name_nt pf then
    let argv := app ["cmd"; "/c"; "start"; "cmd"; "/k"] cmd in
    match popen pf argv with
    | Ok _ => [Popen argv]
    | Raise e => [Popen argv; launch_failed e]
    end
  else try_terminals pf terminals cmd.

(** ** Operations on the selected entry *)

(** [not selected_file] *)
Definition no_selection (sel : option string) : bool :=
  match sel with
  | None => true
  | Some f => negb (truthy f)
  end.

(** [FilePanel.rename_file()]. [answer] is what the operator gives to
    [askstring] ([None] on cancel). *)
Definition rename_file (pf : platform) (fs : filesystem) (cfg : UAConfig)
  (answer : option string) (p : FilePanel)
  : filesystem * FilePanel * list event * option exn :=
  match get_selected_file p with
  | Raise e => (fs, p, [], Some e)
  | Ok sel =>
      match sel with
      | None =>
          (fs, p, [ShowWarning "Warning" "Please select a file to rename"],
           None)
      | Some selected_file =>
          if no_selection sel then
            (fs, p, [ShowWarning "Warning" "Please select a file to rename"],
             None)
          else
            let old_name := basename selected_file in
            let ask :=
              AskString "Rename File"
                ("Enter new name for '" ++ old_name ++ "':") old_name in
            match answer with
            | None => (fs, p, [ask], None)
            | Some new_name =>
                if truthy new_name && negb (new_name =? old_name) then
                  let old_path := selected_file in
                  let new_path := join (dirname selected_file) new_name in
                  match os_rename pf fs old_path new_path with
                  | Raise e =>
                      (fs, p,
                       [ask; OsRename old_path new_path;
                        ShowError "Error"
                          ("Failed to rename file: " ++ exn_str e)],
                       None)
                  | Ok fs' =>
                      let '(p', evs, ex) := refresh_files fs' cfg p in
                      (fs', p',
                       app (ask :: OsRename old_path new_path :: evs)
                        [match ex with
                         | None =>
                             ShowInfo "Success"
                               ("Renamed '" ++ old_name ++ "' to '"
                                ++ new_name ++ "'")
                         | Some e =>
                             ShowError "Error"
                               ("Failed to rename file: " ++ exn_str e)
                         end],
                       None)
                  end
                else (fs, p, [ask], None)
            end
      end
  end.

(** [bool(d)] for a dictionary *)
Definition dict_truthy (V : Type) (d : dict V) : bool :=
  match d with [] => false | _ => true end.

(** [FilePanel.launch_upload_assistant()] *)
Definition launch_upload_assistant (pf : platform) (cfg : UAConfig)
  (p : FilePanel) : list event * option exn :=
  match get_selected_file p with
  | Raise e => ([], Some e)
  | Ok sel =>
      match sel with
      | None =>
          ([ShowWarning "Warning"
              "Please select a file for upload assistant"], None)
      | Some selected_file =>
          if no_selection sel then
            ([ShowWarning "Warning"
                "Please select a file for upload assistant"], None)
          else
            let ua_dialog := UAArgsDialog_init cfg selected_file in
            (OpenArgsDialog selected_file ::
             match dialog_result ua_dialog with
             | Some res =>
                 if dict_truthy res
                 then execute_upload_assistant pf cfg selected_file res
                 else []
             | None => []
             end,
             None)
      end
  end.

(** ** Concrete file systems, for examples *)

Definition is_some (A : Type) (o : option A) : bool :=
  match o with Some _ => true | None => false end.

(** A file system given by its directories (with what listing them
    gives) and its regular files (with what reading them gives). *)
Definition mkfs (dirs : list (string * result (list string)))
  (files : list (string * result string)) : filesystem :=
  {| exists_ := fun p => is_some (assoc p dirs) || is_some (assoc p files);
     isdir := fun p => is_some (assoc p dirs);
     isfile := fun p => is_some (assoc p files);
     listdir := fun p =>
       match assoc p dirs with
       | Some r => r
       | None =>
           if is_some (assoc p files)
           then Raise (OSError "Not a directory")
           else Raise (FileNotFoundError "No such file or directory")
       end;
     read_text := fun p =>
       match assoc p files with
       | Some r => r
       | None =>
           if is_some (assoc p dirs)
           then Raise (OSError "Is a directory")
           else Raise (FileNotFoundError "No such file or directory")
       end |}.

(** [/data/torrents] holds the subdirectories [B], [a], [C] and a file;
    [C] cannot be listed, [a] has a subdirectory. *)
Definition torrents_fs : filesystem :=
  mkfs [("/data/torrents", Ok ["B"; "a"; "C"; "notes.txt"]);
        ("/data/torrents/B", Ok []);
        ("/data/torrents/a", Ok ["x"]);
        ("/data/torrents/a/x", Ok []);
        ("/data/torrents/C", Raise (PermissionError "Permission denied"));
        ("/locked", Raise (PermissionError "Permission denied"))]
       [("/data/torrents/notes.txt", Ok "n")].

(** The item [on_dir_select] works on: [selection()[0]], if any. *)
Definition selected_node (app : App) : option node :=
  match tree_selection (filter_panel app) with
  | Some item => lookup (dir_tree (filter_panel app)) item
  | None => None
  end.

(** [self.dir_tree.get_children(item)] for the selected item. *)
Definition selected_children (app : App) : option (list node) :=
  option_map node_children (selected_node app).

(** A window on [torrents_fs] after the first refresh, with the item of
    directory [a] (index 2) selected. *)
Definition torrents_app : App :=
  {| config := [("PATHS", [("logs_dir", "/logs")])];
     filter_panel :=
       {| current_path_var := "/data/torrents";
          missing_torrents_var := false;
          dir_tree := fst (populate_tree torrents_fs "/data/torrents");
          tree_selection := Some [2%nat] |};
     file_panel := {| current_directory := None; file_listbox := [];
                      curselection := []; current_files := [] |};
     status_var := "Ready" |}.

(** The operator selects another tree item. *)
Definition set_selection (app : App) (sel : option (list nat)) : App :=
  {| config := config app;
     filter_panel :=
       {| current_path_var := current_path_var (filter_panel app);
          missing_torrents_var := missing_torrents_var (filter_panel app);
          dir_tree := dir_tree (filter_panel app);
          tree_selection := sel |};
     file_panel := file_panel app;
     status_var := status_var app |}.

(** The operator clicks line [i] of the list box. *)
Definition select_index (p : FilePanel) (i : Z) : FilePanel :=
  {| current_directory := current_directory p;
     file_listbox := file_listbox p;
     curselection := [i];
     current_files := current_files p |}.

(** The lines of one log file, none when it cannot be read. *)
Definition readable_lines (fs : filesystem) (logs_dir log_file : string)
  : list string :=
  match read_text fs (join logs_dir log_file) with
  | Ok content => split_lines content
  | Raise _ => []
  end.

Definition empty_panel : FilePanel :=
  {| current_directory := None; file_listbox := [];
     curselection := []; current_files := [] |}.

Definition logs_config : UAConfig :=
  [("PATHS", [("logs_dir", "/logs"); ("torrents_dir", "/data");
              ("upload_assistant_path", "upload-assistant")])].

(** [/logs] holds one log file with the lines [ok],
    [Missing Torrent: foo.mkv] and [torrentmissingbar]; [/data] holds a
    directory and a file. *)
Definition logs_fs : filesystem :=
  mkfs [("/logs", Ok ["run.log"]);
        ("/data", Ok ["show"; "Movie.mkv"]);
        ("/data/show", Ok [])]
       [("/logs/run.log",
         Ok ("ok" ++ String nl "Missing Torrent: foo.mkv"
             ++ String nl "torrentmissingbar"));
        ("/data/Movie.mkv", Ok "")].

(** What a refresh leaves on display: the labels and the entries. *)
Definition listing (r : FilePanel * list event * option exn)
  : list string * list string :=
  (file_listbox (fst (fst r)), current_files (fst (fst r))).

(** A panel showing two entries. *)
Definition two_files_panel : FilePanel :=
  {| current_directory := Some "/data";
     file_listbox := ["Movie.mkv"; "show"];
     curselection := [];
     current_files := ["/data/Movie.mkv"; "/data/show"] |}.

(** A host without terminal emulators, on which the renamed path does not
    exist. *)
Definition bare_host : platform :=
  {| os_name_nt := false;
     popen := fun _ => Raise (FileNotFoundError "No such file or directory");
     run := fun _ => Ok tt;
     os_rename := fun _ _ _ =>
       Raise (FileNotFoundError "No such file or directory") |}.

(** The panel of [logs_fs] with the filter on and its first line selected. *)
Definition missing_panel : FilePanel :=
  select_index
    (fst (fst (update_files logs_fs logs_config "/data" true empty_panel))) 0.

(** ** The flags one key stands for, in the words of the specification *)

(** [--key] for boolean true, [--key value] for a non-empty string,
    nothing for boolean false and for the empty string. *)
Definition spec_flags (kv : string * value) : list string :=
  match snd kv with
  | VBool true => ["--" ++ fst kv]
  | VBool false => []
  | VStr s => if s =? "" then [] else ["--" ++ fst kv; s]
  end.

(** What one dialog variable contributes to [launch_result]. *)
Definition result_item (kv : string * tkvar) : dict value :=
  match snd kv with
  | BooleanVar b => [(fst kv, VBool b)]
  | StringVar s =>
      if truthy (strip s) then [(fst kv, VStr (strip s))] else []
  end.

(** The same two arguments, set in the two possible orders. *)
Definition bag_tmdb_first : dict value :=
  dict_set (dict_set [] "tmdb" (VStr "123")) "freeleech" (VBool true).
Definition bag_freeleech_first : dict value :=
  dict_set (dict_set [] "freeleech" (VBool true)) "tmdb" (VStr "123").

(** The names and paths of a sequence of child items. *)
Definition child_entries (children : list node)
  : list (string * list string) :=
  map (fun c => (node_text c, node_values c)) children.

(** ** Predicates used in the statements *)

(** The order of [list.sort()] on strings. *)
Definition str_le (a b : string) : Prop := String.leb a b = true.

(** A node of the tree stands for an item. *)
Definition node_for (n : node) (it : string * string) : Prop :=
  node_text n = fst it /\ node_values n = [snd it].

(** How a label of the list box relates to the entry stored for it. *)
Definition entry_matches (directory : string) (show_missing_only : bool)
  (label path : string) : Prop :=
  if show_missing_only then label = "[MISSING] " ++ path
  else path = join directory label.

(** A byte that a white space character can hold: a one-byte white
    space, or a byte of a character beyond ASCII. *)
Definition ws_byte (c : ascii) : bool :=
  is_space c || (128 <=? nat_of_ascii c)%nat.

Fixpoint all_ws_bytes (s : string) : bool :=
  match s with
  | EmptyString => true
  | String c r => ws_byte c && all_ws_bytes r
  end.

(** The string of the bytes [l]. *)
Definition bytes (l : list nat) : string :=
  string_of_list_ascii (map ascii_of_nat l).

(** The UTF-8 forms of the characters for which [str.isspace()] holds. *)
Definition whitespace : list string :=
  map bytes
    [[9]; [10]; [11]; [12]; [13]; [28]; [29]; [30]; [31]; [32];
     [194; 133]; [194; 160];
     [225; 154; 128];
     [226; 128; 128]; [226; 128; 129]; [226; 128; 130]; [226; 128; 131];
     [226; 128; 132]; [226; 128; 133]; [226; 128; 134]; [226; 128; 135];
     [226; 128; 136]; [226; 128; 137]; [226; 128; 138];
     [226; 128; 168]; [226; 128; 169]; [226; 128; 175];
     [226; 129; 159];
     [227; 128; 128]].

(** [s] begins, or ends, with a white space character. *)
Definition starts_with_space (s : string) : Prop :=
  exists w r, In w whitespace /\ s = w ++ r.
Definition ends_with_space (s : string) : Prop :=
  exists w t, In w whitespace /\ s = t ++ w.

(** [s] is a non-empty text without white space at either end. *)
Definition trimmed (s : string) : Prop :=
  truthy s = true /\ ~ starts_with_space s /\ ~ ends_with_space s.

(** [s] is made of white space characters only. *)
Inductive white : string -> Prop :=
| white_nil : white EmptyString
| white_cons (w r : string) : In w whitespace -> white r -> white (w ++ r).

(** U+00A0 and U+3000, two white space characters beyond ASCII. *)
Definition nbsp : string := bytes [194; 160].
Definition ideographic_space : string := bytes [227; 128; 128].

(** ** Further operations of the window *)

(** [FilePanel.make_torrent()] *)
Definition make_torrent (p : FilePanel) : list event * option exn :=
  match get_selected_file p with
  | Raise e => ([], Some e)
  | Ok sel =>
      if no_selection sel then
        ([ShowWarning "Warning"
            "Please select a file to create torrent for"], None)
      else
        ([ShowInfo "Info"
            "Torrent creation functionality will be implemented"], None)
  end.

(** [FilterPanel.get_selected_path()] *)
Definition get_selected_path (fp : FilterPanel) : string :=
  match tree_selection fp with
  | Some item =>
      match lookup (dir_tree fp) item with
      | Some (Node _ (path :: _) _) => path
      | _ => current_path_var fp
      end
  | None => current_path_var fp
  end.

(** [FilterPanel.get_missing_torrents_filter()] *)
Definition get_missing_torrents_filter (fp : FilterPanel) : bool :=
  missing_torrents_var fp.

(** [FilterPanel.on_filter_change()], the command of the check button:
    it hands the selected path to the [on_selection_change] callback. *)
Definition FilterPanel_on_filter_change (fs : filesystem) (app : App)
  : App * list event * option exn :=
  on_filter_change fs app (get_selected_path (filter_panel app)).

(** The operator clicks the check button: Tk flips the variable, then
    runs the command. *)
Definition click_missing_filter (fs : filesystem) (app : App)
  : App * list event * option exn :=
  FilterPanel_on_filter_change fs
    {| config := config app;
       filter_panel :=
         {| current_path_var := current_path_var (filter_panel app);
            missing_torrents_var :=
              negb (missing_torrents_var (filter_panel app));
            dir_tree := dir_tree (filter_panel app);
            tree_selection := tree_selection (filter_panel app) |};
       file_panel := file_panel app;
       status_var := status_var app |}.

(** [UploadAssistantGUI.refresh_all()] *)
Definition refresh_all (fs : filesystem) (app : App)
  : App * list event * option exn :=
  let (fp, ex) := refresh_directory_tree fs (filter_panel app) in
  match ex with
  | Some e =>
      ({| config := config app; filter_panel := fp;
          file_panel := file_panel app; status_var := status_var app |},
       [], Some e)
  | None =>
      let '(files, evs, ex') := refresh_files fs (config app) (file_panel app) in
      ({| config := config app; filter_panel := fp; file_panel := files;
          status_var :=
            match ex' with
            | Some _ => status_var app
            | None => "Refreshed"
            end |},
       evs, ex')
  end.

(** The [argv] of lines 367-370 for one terminal. *)
Definition terminal_argv (terminal : string) (cmd : list string)
  : list string :=
  if terminal =? "gnome-terminal"
  then [terminal; "--"; "bash"; "-c"; join_with " " cmd ++ pause_suffix]
  else [terminal; "-e"; "bash"; "-c"; join_with " " cmd ++ pause_suffix].

(** ** Predicates on events, strings and paths *)

Definition is_error_box (ev : event) : bool :=
  match ev with ShowError _ _ => true | _ => false end.



(** A process is started, or its start attempted. *)
Definition is_process (ev : event) : bool :=
  match ev with Popen _ | Run _ => true | _ => false end.

Definition is_rename (ev : event) : bool :=
  match ev with OsRename _ _ => true | _ => false end.



(** Can [log_file] of [logs_dir] be read? *)
Definition readable (fs : filesystem) (logs_dir log_file : string) : bool :=
  match read_text fs (join logs_dir log_file) with
  | Ok _ => true
  | Raise _ => false
  end.

(** The selected item has at most its [Loading...] child. *)
Definition collapsed (n : node) : bool :=
  match node_children n with
  | [] => true
  | [Node t [] []] => t =? "Loading..."
  | _ => false
  end.

(** Index path [p] is a prefix of index path [q]. *)
Fixpoint path_prefix (p q : list nat) : bool :=
  match p, q with
  | [], _ => true
  | i :: p', j :: q' => Nat.eqb i j && path_prefix p' q'
  | _ :: _, [] => false
  end.

(** The last character of [s] is a slash. *)
Fixpoint last_is_slash (s : string) : bool :=
  match s with
  | EmptyString => false
  | String c EmptyString => Ascii.eqb c slash
  | String _ r => last_is_slash r
  end.

(** A file system whose logs hold one unreadable file between two
    readable ones. *)
Definition corrupt_logs_fs : filesystem :=
  mkfs [("/logs", Ok ["a.log"; "bad.log"; "c.log"; "d.txt"]);
        ("/data", Ok [])]
       [("/logs/a.log", Ok "torrent missing: one");
        ("/logs/bad.log", Raise (OtherException "invalid start byte"));
        ("/logs/c.log", Ok ("nothing" ++ String nl "  Missing torrent two  "));
        ("/logs/d.txt", Ok "missing torrent three")].

(** A file system whose one log holds a line with a no-break space and a
    blank before its text and an ideographic space and a tab after it. *)
Definition padded_logs_fs : filesystem :=
  mkfs [("/logs", Ok ["run.log"]); ("/data", Ok [])]
       [("/logs/run.log",
         Ok ("ok" ++ String nl
               (nbsp ++ " Missing Torrent: foo.mkv" ++ ideographic_space
                ++ String (ascii_of_nat 9) EmptyString)))].

(** A host on which [konsole] is the only terminal emulator. *)
Definition konsole_host : platform :=
  {| os_name_nt := false;
     popen := fun argv =>
       match argv with
       | "konsole" :: _ => Ok tt
       | _ => Raise (FileNotFoundError "No such file or directory")
       end;
     run := fun _ => Ok tt;
     os_rename := fun _ _ _ =>
       Raise (FileNotFoundError "No such file or directory") |}.

(** [str(e)] of the exception that reading [path] raises, if it does. *)
Definition read_error (fs : filesystem) (path : string) : string :=
  match read_text fs path with
  | Ok _ => EmptyString
  | Raise e => exn_str e
  end.

(** The text and values of an item, without its children. *)
Definition item_entry (n : node) : string * list string :=
  (node_text n, node_values n).

(** A window on [logs_fs] with the filter ticked, nothing selected in
    the tree and the missing-only listing on display. *)
Definition filtered_app : App :=
  {| config := logs_config;
     filter_panel :=
       {| current_path_var := "/data";
          missing_torrents_var := true;
          dir_tree := fst (populate_tree logs_fs "/data");
          tree_selection := None |};
     file_panel :=
       fst (fst (update_files logs_fs logs_config "/data" true empty_panel));
     status_var := "Directory: /data" |}.

(** Did starting [terminal] on [cmd] fail because the program is absent? *)
Definition terminal_absent (pf : platform) (cmd : list string)
  (terminal : string) : bool :=
  match popen pf (terminal_argv terminal cmd) with
  | Raise e => is_FileNotFoundError e
  | Ok _ => false
  end.

(** The error box, if any, that follows an attempt with outcome [r]. *)
Definition failure_box (r : result unit) : list event :=
  match r with
  | Ok _ => []
  | Raise e => [launch_failed e]
  end.

(** The parts of what [rename_file] returns. *)
Definition rename_fs (r : filesystem * FilePanel * list event * option exn)
  : filesystem := fst (fst (fst r)).
Definition rename_panel (r : filesystem * FilePanel * list event * option exn)
  : FilePanel := snd (fst (fst r)).
Definition rename_events (r : filesystem * FilePanel * list event * option exn)
  : list event := snd (fst r).

(** A host on which every rename succeeds and leaves the observed file
    system as it is (as when the renamed path lies outside the listed
    directories). *)
Definition lenient_host : platform :=
  {| os_name_nt := false;
     popen := fun _ => Raise (FileNotFoundError "No such file or directory");
     run := fun _ => Ok tt;
     os_rename := fun fs _ _ => Ok fs |}.



(** A directory [p] whose only subdirectory is named [Loading...] and has
    a subdirectory [x] of its own. *)
Definition loading_fs : filesystem :=
  mkfs [("/r", Ok ["p"]);
        ("/r/p", Ok ["Loading..."]);
        ("/r/p/Loading...", Ok ["x"]);
        ("/r/p/Loading.../x", Ok [])]
       [].

(** A window on [loading_fs] after the first refresh, with the item of
    [p] selected. *)
Definition loading_app : App :=
  {| config := [("PATHS", [("logs_dir", "/logs")])];
     filter_panel :=
       {| current_path_var := "/r";
          missing_torrents_var := false;
          dir_tree := fst (populate_tree loading_fs "/r");
          tree_selection := Some [0%nat] |};
     file_panel := {| current_directory := None; file_listbox := [];
                      curselection := []; current_files := [] |};
     status_var := "Ready" |}.

(** The operator selects [item] and [on_dir_select] runs. *)
Definition select_item (fs : filesystem) (app : App) (item : list nat)
  : App :=
  fst (fst (on_dir_select fs (set_selection app (Some item)))).

(** The window after [p] and then its child were selected: both are
    expanded. *)
Definition loading_app_expanded : App :=
  select_item loading_fs (select_item loading_fs loading_app [0%nat])
    [0%nat; 0%nat].


(** * Properties *)

(** ** Sorting *)

Section SortFacts.
Variable A : Type.
Variable leb : A -> A -> bool.
Hypothesis leb_total : forall x y, leb x y = false -> leb y x = true.

Let le (x y : A) : Prop := leb x y = true.

Lemma insert_sorted_perm (x : A) (l : list A) :
  Permutation (x :: l) (insert_sorted leb x l).
Proof.
  induction l as [|y r IH]; simpl.
  - apply Permutation_refl.
  - destruct (leb x y).
    + apply Permutation_refl.
    + eapply perm_trans; [apply perm_swap|].
      now apply perm_skip.
Qed.

Lemma sort_perm (l : list A) : Permutation l (sort leb l).
Proof.
  induction l as [|x r IH]; simpl.
  - constructor.
  - eapply perm_trans; [|apply insert_sorted_perm].
    now apply perm_skip.
Qed.

Lemma insert_sorted_hd (x y : A) (l : list A) :
  le y x -> HdRel le y l -> HdRel le y (insert_sorted leb x l).
Proof.
  intros Hyx Hhd. destruct l as [|z r]; simpl.
  - now constructor.
  - destruct (leb x z); constructor; auto.
    now inversion Hhd.
Qed.

Lemma insert_sorted_Sorted (x : A) (l : list A) :
  Sorted le l -> Sorted le (insert_sorted leb x l).
Proof.
  induction 1 as [|y r Hs IH Hhd]; simpl.
  - repeat constructor.
  - destruct (leb x y) eqn:E.
    + constructor; [now constructor|]. now constructor.
    + constructor; [exact IH|].
      apply insert_sorted_hd; [|exact Hhd].
      now apply leb_total.
Qed.

Lemma sort_Sorted (l : list A) : Sorted le (sort leb l).
Proof.
  induction l as [|x r IH]; simpl.
  - constructor.
  - now apply insert_sorted_Sorted.
Qed.

Lemma sort_In (x : A) (l : list A) : In x (sort leb l) <-> In x l.
Proof.
  split; intro H.
  - eapply Permutation_in; [apply Permutation_sym, sort_perm|exact H].
  - eapply Permutation_in; [apply sort_perm|exact H].
Qed.

Lemma sort_length (l : list A) : List.length (sort leb l) = List.length l.
Proof. symmetry. apply Permutation_length, sort_perm. Qed.

End SortFacts.

(** ** The order on strings *)

Lemma ascii_compare_refl (c : ascii) : Ascii.compare c c = Eq.
Proof. unfold Ascii.compare. apply N.compare_refl. Qed.

Lemma string_compare_refl (s : string) : String.compare s s = Eq.
Proof.
  induction s as [|c s IH]; simpl; [reflexivity|].
  now rewrite ascii_compare_refl.
Qed.

Lemma string_compare_lt_trans (a b c : string) :
  String.compare a b = Lt -> String.compare b c = Lt ->
  String.compare a c = Lt.
Proof.
  revert b c. induction a as [|x a IH]; intros [|y b] [|z c]; simpl;
    try congruence.
  destruct (Ascii.compare x y) eqn:Exy; try discriminate.
  - apply Ascii.compare_eq_iff in Exy. subst y.
    destruct (Ascii.compare x z); try congruence. apply IH.
  - intros _.
    destruct (Ascii.compare y z) eqn:Eyz; try discriminate.
    + apply Ascii.compare_eq_iff in Eyz. subst z. now rewrite Exy.
    + intros _. unfold Ascii.compare in *.
      rewrite N.compare_lt_iff in *.
      assert (H : (N_of_ascii x < N_of_ascii z)%N) by lia.
      apply N.compare_lt_iff in H. now rewrite H.
Qed.

Lemma str_le_refl (a : string) : str_le a a.
Proof. unfold str_le, String.leb. now rewrite string_compare_refl. Qed.

Lemma str_le_trans (a b c : string) : str_le a b -> str_le b c -> str_le a c.
Proof.
  unfold str_le, String.leb.
  destruct (String.compare a b) eqn:Eab; try discriminate; intros _;
    destruct (String.compare b c) eqn:Ebc; try discriminate; intros _.
  - apply String.compare_eq_iff in Eab, Ebc. subst.
    now rewrite string_compare_refl.
  - apply String.compare_eq_iff in Eab. subst. now rewrite Ebc.
  - apply String.compare_eq_iff in Ebc. subst. now rewrite Eab.
  - now rewrite (string_compare_lt_trans _ _ _ Eab Ebc).
Qed.

Lemma string_leb_false_total (a b : string) :
  String.leb a b = false -> String.leb b a = true.
Proof.
  intro H. destruct (String.leb_total a b) as [E|E]; congruence.
Qed.

Lemma pair_leb_total (p q : string * string) :
  pair_leb p q = false -> pair_leb q p = true.
Proof.
  destruct p as [a b], q as [c d]. unfold pair_leb, String.ltb; simpl.
  rewrite (String.compare_antisym c a).
  destruct (String.compare a c) eqn:E; simpl; try discriminate.
  - apply String.compare_eq_iff in E. subst c.
    rewrite String.eqb_refl. simpl. apply string_leb_false_total.
  - reflexivity.
Qed.

Lemma pair_leb_fst (p q : string * string) :
  pair_leb p q = true -> str_le (fst p) (fst q).
Proof.
  destruct p as [a b], q as [c d].
  unfold pair_leb, str_le, String.ltb, String.leb; simpl.
  destruct (String.compare a c) eqn:E; simpl; try reflexivity.
  destruct (String.eqb_spec a c) as [->|]; simpl; try discriminate.
  now rewrite string_compare_refl in E.
Qed.

(** ** The directory tree *)

Lemma Sorted_map_fst (l : list (string * string)) :
  Sorted (fun p q => pair_leb p q = true) l -> Sorted str_le (map fst l).
Proof.
  induction 1 as [|p l Hs IH Hhd]; simpl; constructor; auto.
  destruct Hhd as [|q r Hpq]; simpl; constructor.
  now apply pair_leb_fst.
Qed.

Lemma StronglySorted_app_l (A : Type) (R : A -> A -> Prop) (l1 l2 : list A) :
  StronglySorted R (l1 ++ l2) -> StronglySorted R l1.
Proof.
  induction l1 as [|x l1 IH]; simpl; intro H.
  - constructor.
  - inversion H as [|? ? Hs Hall]; subst. constructor.
    + now apply IH.
    + now apply Forall_app in Hall.
Qed.

Lemma subdir_items_sorted (fs : filesystem) (path : string)
  (names : list string) :
  StronglySorted str_le
    (map fst (sort pair_leb (subdir_items fs path names))).
Proof.
  apply Sorted_StronglySorted.
  - intros a b c. apply str_le_trans.
  - apply Sorted_map_fst, sort_Sorted, pair_leb_total.
Qed.

(** The loop inserts a node for each item of a prefix of [items], all of
    them when no exception ends it. *)
Lemma insert_items_prefix (fs : filesystem) (items : list (string * string)) :
  exists done rest,
    items = (done ++ rest)%list /\
    Forall2 node_for (fst (insert_items fs items)) done /\
    (snd (insert_items fs items) = None -> rest = []).
Proof.
  induction items as [|[item item_path] items IH]; simpl.
  - exists [], []. repeat split; constructor.
  - destruct IH as (done & rest & Hit & Hf & Hn).
    destruct (has_subdirectories fs item_path) as [b|e].
    + destruct (insert_items fs items) as [ns ex]; simpl in *.
      exists ((item, item_path) :: done), rest.
      split; [simpl; congruence|]. split; [|exact Hn].
      constructor; [now split|exact Hf].
    + exists [(item, item_path)], items.
      split; [reflexivity|]. split; [|discriminate].
      constructor; [now split|constructor].
Qed.

Lemma node_for_texts (ns : list node) (its : list (string * string)) :
  Forall2 node_for ns its -> map node_text ns = map fst its.
Proof.
  induction 1 as [|n it ns its [Ht _] _ IH]; simpl; congruence.
Qed.

Lemma subdir_items_In (fs : filesystem) (path : string)
  (names : list string) (it : string * string) :
  In it (subdir_items fs path names) <->
  In (fst it) names /\ snd it = join path (fst it)
  /\ isdir fs (join path (fst it)) = true.
Proof.
  unfold subdir_items. rewrite in_map_iff. split.
  - intros (x & <- & Hx). apply filter_In in Hx. simpl. tauto.
  - intros (Hin & Hs & Hd). exists (fst it). split.
    + destruct it; simpl in *; congruence.
    + apply filter_In. tauto.
Qed.

Lemma subdir_items_fst (fs : filesystem) (path : string)
  (names : list string) :
  map fst (subdir_items fs path names)
  = filter (fun item => isdir fs (join path item)) names.
Proof.
  unfold subdir_items. rewrite map_map. simpl. apply map_id.
Qed.

(** C6: [populate_tree] on [path] inserts nodes only for subdirectories of
    [path] (names that [os.listdir] returned and [os.path.isdir] accepts),
    in case-sensitive byte order of their names, all of them when no
    exception escapes; a [PermissionError] on [path] gives no node and no
    exception; refreshing the tree again on the same file system gives the
    same tree; and [/data/torrents] with subdirectories [B], [a], [C]
    gives [B], [C], [a]. *)
Theorem populate_tree_sorted_subdirectories (fs : filesystem) (path : string) :
  let nodes := fst (populate_tree fs path) in
  Forall (fun n =>
            (exists names, listdir fs path = Ok names
                           /\ In (node_text n) names)
            /\ isdir fs (join path (node_text n)) = true
            /\ node_values n = [join path (node_text n)]) nodes
  /\ StronglySorted str_le (map node_text nodes)
  /\ (forall names,
        listdir fs path = Ok names ->
        snd (populate_tree fs path) = None ->
        Permutation (map node_text nodes)
          (filter (fun item => isdir fs (join path item)) names))
  /\ (forall m,
        listdir fs path = Raise (PermissionError m) ->
        populate_tree fs path = ([], None))
  /\ (forall fp,
        refresh_directory_tree fs (fst (refresh_directory_tree fs fp))
        = refresh_directory_tree fs fp)
  /\ map node_text (fst (populate_tree torrents_fs "/data/torrents"))
     = ["B"; "C"; "a"].
Proof.
  cbv zeta. unfold populate_tree.
  refine (conj _ (conj _ (conj _ (conj _ (conj _ _))))).
  - destruct (listdir fs path) as [names|e]; simpl; [|constructor].
    destruct (insert_items_prefix fs
                (sort pair_leb (subdir_items fs path names)))
      as (done & rest & Hit & Hf & _).
    assert (Hin : forall it, In it done ->
                             In it (subdir_items fs path names)).
    { intros it Hd. apply (sort_In pair_leb). rewrite Hit.
      apply in_or_app. now left. }
    clear Hit. induction Hf as [|n it ns its [Ht Hv] _ IH]; constructor.
    + destruct (proj1 (subdir_items_In fs path names it)
                  (Hin it (or_introl eq_refl))) as (H1 & H2 & H3).
      rewrite Ht, Hv, H2. split; [now exists names|now split].
    + apply IH. intros it' H'. apply Hin. now right.
  - destruct (listdir fs path) as [names|e]; simpl; [|constructor].
    destruct (insert_items_prefix fs
                (sort pair_leb (subdir_items fs path names)))
      as (done & rest & Hit & Hf & _).
    rewrite (node_for_texts Hf).
    apply StronglySorted_app_l with (l2 := map fst rest).
    rewrite <- map_app, <- Hit. apply subdir_items_sorted.
  - intros names Hl. rewrite Hl. intro Hnone.
    destruct (insert_items_prefix fs
                (sort pair_leb (subdir_items fs path names)))
      as (done & rest & Hit & Hf & Hrest).
    rewrite (node_for_texts Hf).
    rewrite (Hrest Hnone), app_nil_r in Hit. rewrite <- Hit.
    rewrite <- subdir_items_fst.
    apply Permutation_map, Permutation_sym, sort_perm.
  - intros m Hl. now rewrite Hl.
  - intro fp. unfold refresh_directory_tree.
    destruct (exists_ fs (current_path_var fp)) eqn:E.
    + destruct (populate_tree fs (current_path_var fp)) as [ns ex] eqn:Ep.
      simpl. now rewrite E, Ep.
    + simpl. now rewrite E.
  - reflexivity.
Qed.

(** The theorem at [torrents_fs]: [/data/torrents] can be listed and
    [/locked] cannot. *)
Lemma populate_tree_sorted_subdirectories_witness :
  Permutation
    (map node_text (fst (populate_tree torrents_fs "/data/torrents")))
    ["B"; "a"; "C"]
  /\ populate_tree torrents_fs "/locked" = ([], None).
Proof.
  destruct (populate_tree_sorted_subdirectories torrents_fs "/data/torrents")
    as (_ & _ & Hperm & _).
  destruct (populate_tree_sorted_subdirectories torrents_fs "/locked")
    as (_ & _ & _ & Hdenied & _).
  split.
  - apply (Hperm ["B"; "a"; "C"; "notes.txt"]); reflexivity.
  - apply (Hdenied "Permission denied"). reflexivity.
Defined.

Lemma existsb_false_filter (A : Type) (f : A -> bool) (l : list A) :
  existsb f l = false <-> filter f l = [].
Proof.
  induction l as [|x l IH]; simpl; [tauto|].
  destruct (f x); simpl; [split; discriminate|exact IH].
Qed.

Lemma sort_nil_iff (A : Type) (leb : A -> A -> bool) (l : list A) :
  sort leb l = [] <-> l = [].
Proof.
  split; intro H; [|now subst].
  apply length_zero_iff_nil. rewrite <- (sort_length leb), H. reflexivity.
Qed.

Lemma insert_items_nil_iff (fs : filesystem)
  (items : list (string * string)) :
  fst (insert_items fs items) = [] <-> items = [].
Proof.
  destruct items as [|[item item_path] items]; simpl; [tauto|].
  destruct (has_subdirectories fs item_path);
    [destruct (insert_items fs items)|]; simpl; split; discriminate.
Qed.

Lemma subdir_items_nil_iff (fs : filesystem) (path : string)
  (names : list string) :
  subdir_items fs path names = [] <->
  existsb (fun x => isdir fs (join path x)) names = false.
Proof.
  rewrite existsb_false_filter. unfold subdir_items.
  split; intro H; [now apply map_eq_nil in H|now rewrite H].
Qed.

(** C7: the probe that decides whether a node gets its [Loading...] child
    answers false exactly when populating that node inserts nothing (and
    raises nothing), true exactly when populating inserts at least one
    node, and true exactly when [os.listdir] succeeds and names some
    subdirectory; a [PermissionError] makes the probe false and the
    listing empty alike. *)
Theorem probe_false_iff_no_children (fs : filesystem) (path : string) :
  (has_subdirectories fs path = Ok false
   <-> populate_tree fs path = ([], None))
  /\ (has_subdirectories fs path = Ok true
      <-> fst (populate_tree fs path) <> [])
  /\ (has_subdirectories fs path = Ok true
      <-> exists names x, listdir fs path = Ok names /\ In x names
                          /\ isdir fs (join path x) = true).
Proof.
  unfold has_subdirectories, populate_tree.
  destruct (listdir fs path) as [names|e].
  - pose proof (subdir_items_nil_iff fs path names) as Hnil.
    pose proof (insert_items_nil_iff fs
                  (sort pair_leb (subdir_items fs path names))) as Hins.
    rewrite sort_nil_iff in Hins.
    destruct (existsb (fun x => isdir fs (join path x)) names) eqn:Ex.
    + assert (Hne : subdir_items fs path names <> [])
        by (intro H; apply Hnil in H; discriminate).
      split; [|split].
      * split; [discriminate|]. intro H. exfalso. apply Hne, Hins.
        now rewrite H.
      * split; [|reflexivity]. intros _ H. apply Hne, Hins, H.
      * split; [|reflexivity]. intros _.
        apply existsb_exists in Ex. destruct Ex as (x & Hin & Hd).
        now exists names, x.
    + assert (He : subdir_items fs path names = []) by now apply Hnil.
      rewrite He. simpl. split; [|split].
      * split; reflexivity.
      * split; [discriminate|]. intro H. now elim H.
      * split; [discriminate|]. intros (names' & x & Hl & Hin & Hd).
        injection Hl as <-.
        assert (existsb (fun x => isdir fs (join path x)) names = true)
          by (apply existsb_exists; now exists x).
        congruence.
  - destruct e; simpl; (split; [|split]);
      try (split; [discriminate|]); try (split; [reflexivity|]);
      try reflexivity; try discriminate;
      try (intro H; now elim H);
      try (intros (names' & x & Hl & _); discriminate).
Qed.

(** The theorem at [torrents_fs]: [B] has no subdirectory, [a] has one. *)
Lemma probe_false_iff_no_children_witness :
  has_subdirectories torrents_fs "/data/torrents/B" = Ok false
  /\ fst (populate_tree torrents_fs "/data/torrents/a") <> [].
Proof.
  split.
  - apply (probe_false_iff_no_children torrents_fs "/data/torrents/B").
    reflexivity.
  - apply (probe_false_iff_no_children torrents_fs "/data/torrents/a").
    reflexivity.
Defined.

(** ** Expanding a node *)

Lemma nth_error_replace_nth (A : Type) (i : nat) (x y : A) (l : list A) :
  nth_error l i = Some y -> nth_error (replace_nth i x l) i = Some x.
Proof.
  revert i. induction l as [|z l IH]; intros [|i]; simpl; try discriminate;
    auto.
Qed.

Lemma replace_nth_twice (A : Type) (i : nat) (x y : A) (l : list A) :
  replace_nth i y (replace_nth i x l) = replace_nth i y l.
Proof.
  revert i. induction l as [|z l IH]; intros [|i]; simpl; try reflexivity.
  now rewrite IH.
Qed.

Lemma lookup_replace_at (p : list nat) (forest : list node) (n n' : node) :
  lookup forest p = Some n -> lookup (replace_at forest p n') p = Some n'.
Proof.
  revert forest. induction p as [|i p IH]; intros forest; simpl;
    [discriminate|].
  destruct (nth_error forest i) as [[t v ch]|] eqn:E; [|discriminate].
  destruct p as [|j p].
  - intros _. now rewrite (nth_error_replace_nth _ _ _ E).
  - intro H. rewrite (nth_error_replace_nth _ _ _ E). simpl node_children.
    now apply IH.
Qed.

Lemma replace_at_twice (p : list nat) (forest : list node) (n1 n2 : node) :
  replace_at (replace_at forest p n1) p n2 = replace_at forest p n2.
Proof.
  revert forest. induction p as [|i p IH]; intros forest; simpl;
    [reflexivity|].
  destruct (nth_error forest i) as [[t v ch]|] eqn:E.
  - destruct p as [|j p].
    + rewrite (nth_error_replace_nth _ _ _ E).
      destruct n1. apply replace_nth_twice.
    + rewrite (nth_error_replace_nth _ _ _ E).
      now rewrite replace_nth_twice, IH.
  - now rewrite E.
Qed.

Lemma on_filter_change_set_dir_tree (fs : filesystem) (app : App)
  (forest : list node) (selected_path : string) :
  on_filter_change fs (set_dir_tree app forest) selected_path
  = let '(app1, evs, ex) := on_filter_change fs app selected_path in
    (set_dir_tree app1 forest, evs, ex).
Proof.
  unfold on_filter_change. simpl.
  destruct (update_files fs (config app) selected_path
              (missing_torrents_var (filter_panel app)) (file_panel app))
    as [[fp evs] [e|]]; reflexivity.
Qed.

Lemma on_filter_change_again (fs : filesystem) (app app1 : App)
  (selected_path : string) (evs : list event) (ex : option exn) :
  on_filter_change fs app selected_path = (app1, evs, ex) ->
  on_filter_change fs app1 selected_path = (app1, evs, ex)
  /\ filter_panel app1 = filter_panel app.
Proof.
  unfold on_filter_change.
  assert (Hu : forall p cfg b,
             update_files fs cfg selected_path b p
             = update_files fs cfg selected_path b (file_panel app))
    by reflexivity.
  destruct (update_files fs (config app) selected_path
              (missing_torrents_var (filter_panel app)) (file_panel app))
    as [[fp evs0] [e|]] eqn:E; intros [= <- <- <-]; simpl;
    rewrite Hu, E; split; reflexivity.
Qed.

Lemma on_dir_select_again (fs : filesystem) (app app1 : App)
  (evs : list event) (ex : option exn) :
  on_dir_select fs app = (app1, evs, ex) ->
  fst (fst (on_dir_select fs app1)) = app1.
Proof.
  unfold on_dir_select.
  destruct (tree_selection (filter_panel app)) as [item|] eqn:Es;
    [|intros [= <- _ _]; now rewrite Es].
  destruct (lookup (dir_tree (filter_panel app)) item)
    as [[text values children]|] eqn:El;
    [|intros [= <- _ _]; now rewrite Es, El].
  destruct values as [|selected_path values];
    [intros [= <- _ _]; now rewrite Es, El|].
  destruct (on_filter_change fs app selected_path) as [[a1 evs1] ex1] eqn:Ef.
  destruct (on_filter_change_again _ _ _ Ef) as [Hagain Hfp].
  destruct ex1 as [e|].
  - intros [= <- _ _]. now rewrite Hfp, Es, El, Hagain.
  - destruct (only_loading_child children) eqn:Eo.
    + destruct (populate_tree fs selected_path) as [nodes ex'] eqn:Ep.
      intros [= <- _ _]. simpl. rewrite Hfp, Es.
      rewrite (lookup_replace_at _ _ _ El).
      rewrite on_filter_change_set_dir_tree, Hagain.
      destruct (only_loading_child nodes); [|reflexivity].
      rewrite Ep. simpl. rewrite replace_at_twice. reflexivity.
    + intros [= <- _ _]. now rewrite Hfp, Es, El, Hagain, Eo.
Qed.

(** C8 does not hold of [on_dir_select]. Line 169 takes an item for one
    not yet expanded when its only child has the text [Loading...], which
    is also true of an expanded item whose only subdirectory has that
    name. In [loading_fs], with [p] and its child both expanded, selecting
    [p] again raises nothing, deletes the expanded child and lists it
    anew, collapsed: the children of the expanded [p] are not returned
    unchanged. *)
Lemma on_dir_select_collapses_loading_child :
  selected_children (set_selection loading_app_expanded (Some [0%nat]))
  = Some [Node "Loading..." ["/r/p/Loading..."]
            [Node "x" ["/r/p/Loading.../x"] []]]
  /\ snd (on_dir_select loading_fs
            (set_selection loading_app_expanded (Some [0%nat]))) = None
  /\ selected_children (select_item loading_fs loading_app_expanded [0%nat])
     = Some [Node "Loading..." ["/r/p/Loading..."] [placeholder]]
  /\ selected_children (select_item loading_fs loading_app_expanded [0%nat])
     <> selected_children
          (set_selection loading_app_expanded (Some [0%nat])).
Proof.
  split; [reflexivity|]. split; [reflexivity|]. split; [reflexivity|].
  discriminate.
Qed.

(** X23: selecting the same tree item twice in a row on an unchanged file
    system leaves the window, and so the children of the item, as the
    first selection left them; selecting an item whose children are not
    the lone [Loading...] item does not change the tree; and selecting an
    item whose children already are the subdirectories of its path leaves
    the sequence of their names and paths as it is. *)
Theorem on_dir_select_idempotent (fs : filesystem) (app : App) :
  let app1 := fst (fst (on_dir_select fs app)) in
  let app2 := fst (fst (on_dir_select fs app1)) in
  app2 = app1
  /\ selected_children app2 = selected_children app1
  /\ (forall n,
        selected_node app = Some n ->
        only_loading_child (node_children n) = false ->
        dir_tree (filter_panel app1) = dir_tree (filter_panel app))
  /\ (forall n,
        selected_node app = Some n ->
        child_entries (node_children n)
        = child_entries (fst (populate_tree fs (hd "" (node_values n)))) ->
        option_map child_entries (selected_children app1)
        = Some (child_entries (node_children n))).
Proof.
  cbv zeta.
  destruct (on_dir_select fs app) as [[app1 evs] ex] eqn:E. simpl fst.
  pose proof (on_dir_select_again _ _ E) as H.
  split; [exact H|]. split; [now rewrite H|]. split.
  - intros n Hn Ho. revert E. unfold on_dir_select, selected_node in *.
    destruct (tree_selection (filter_panel app)) as [item|];
      [|discriminate].
    rewrite Hn. destruct n as [text values children]. simpl in Ho.
    destruct values as [|selected_path values]; [now intros [= <- _ _]|].
    destruct (on_filter_change fs app selected_path)
      as [[a1 evs1] ex1] eqn:Ef.
    destruct (on_filter_change_again _ _ _ Ef) as [_ Hfp].
    rewrite Ho. destruct ex1; intros [= <- _ _]; now rewrite Hfp.
  - intros n Hn Hsame. revert E.
    unfold on_dir_select, selected_children, selected_node in *.
    destruct (tree_selection (filter_panel app)) as [item|] eqn:Es;
      [|discriminate].
    rewrite Hn. destruct n as [text values children]. simpl in Hsame.
    destruct values as [|selected_path values];
      [intros [= <- _ _]; now rewrite Es, Hn|].
    destruct (on_filter_change fs app selected_path)
      as [[a1 evs1] ex1] eqn:Ef.
    destruct (on_filter_change_again _ _ _ Ef) as [_ Hfp].
    destruct ex1 as [e|]; [intros [= <- _ _]; now rewrite Hfp, Es, Hn|].
    destruct (only_loading_child children);
      [|intros [= <- _ _]; now rewrite Hfp, Es, Hn].
    simpl in Hsame.
    destruct (populate_tree fs selected_path) as [nodes ex'].
    intros [= <- _ _]. simpl. rewrite Hfp, Es.
    rewrite (lookup_replace_at _ _ _ Hn). simpl. now rewrite Hsame.
Qed.

(** The theorem at [torrents_app] with the item of directory [B]
    selected, which has no child item. *)
Lemma on_dir_select_idempotent_witness :
  dir_tree
    (filter_panel
       (fst (fst (on_dir_select torrents_fs
                    (set_selection torrents_app (Some [0%nat]))))))
  = dir_tree (filter_panel torrents_app)
  /\ option_map child_entries
       (selected_children
          (fst (fst (on_dir_select torrents_fs
                       (fst (fst (on_dir_select torrents_fs
                                    torrents_app)))))))
     = Some [("x", ["/data/torrents/a/x"])].
Proof.
  destruct (on_dir_select_idempotent torrents_fs
              (set_selection torrents_app (Some [0%nat])))
    as (_ & _ & H & _).
  destruct (on_dir_select_idempotent torrents_fs
              (fst (fst (on_dir_select torrents_fs torrents_app))))
    as (_ & _ & _ & H').
  split.
  - apply (H (Node "B" ["/data/torrents/B"] [])); reflexivity.
  - apply (H' (Node "a" ["/data/torrents/a"]
                 [Node "x" ["/data/torrents/a/x"] []])); reflexivity.
Defined.

(** ** The listing *)

Lemma prefix_iff (a s : string) :
  prefix a s = true <-> exists post, s = a ++ post.
Proof.
  revert s. induction a as [|c a IH]; intros s; simpl.
  - split; [intros _; now exists s|intros _; now destruct s].
  - destruct s as [|d s].
    + split; [discriminate|intros (post & H); discriminate].
    + simpl. destruct (ascii_dec c d) as [->|Hne].
      * rewrite IH. split; intros (post & H); exists post; congruence.
      * split; [discriminate|]. intros (post & H). congruence.
Qed.

(** [contains] is the substring test. *)
Lemma contains_iff (sub s : string) :
  contains sub s = true <-> exists pre post, s = pre ++ sub ++ post.
Proof.
  induction s as [|c s IH].
  - change (contains sub EmptyString) with (prefix sub EmptyString || false).
    rewrite orb_false_r, prefix_iff. split.
    + intros (post & H). now exists EmptyString, post.
    + intros ([|d pre] & post & H); [now exists post|discriminate].
  - change (contains sub (String c s))
      with (prefix sub (String c s) || contains sub s).
    rewrite orb_true_iff, IH, prefix_iff. split.
    + intros [(post & H)|(pre & post & H)].
      * now exists EmptyString, post.
      * exists (String c pre), post. simpl. congruence.
    + intros ([|d pre] & post & H).
      * left. now exists post.
      * right. exists pre, post. simpl in H. congruence.
Qed.

Lemma add_entries (A : Type) (f g : A -> string) (l : list A)
  (p : FilePanel) :
  let p' := fold_left (fun q x => add_entry (f x) (g x) q) l p in
  file_listbox p' = (file_listbox p ++ map f l)%list
  /\ current_files p' = (current_files p ++ map g l)%list
  /\ curselection p' = curselection p
  /\ current_directory p' = current_directory p.
Proof.
  cbv zeta. revert p. induction l as [|x l IH]; intro p; simpl.
  - now rewrite !app_nil_r.
  - destruct (IH (add_entry (f x) (g x) p)) as (H1 & H2 & H3 & H4).
    rewrite H1, H2, H3, H4. simpl. now rewrite <- !app_assoc.
Qed.

Lemma scan_logs_found (fs : filesystem) (logs_dir : string)
  (log_files : list string) :
  fst (scan_logs fs logs_dir log_files)
  = map strip
      (filter is_missing_line
         (flat_map (readable_lines fs logs_dir) log_files)).
Proof.
  induction log_files as [|f r IH]; simpl; [reflexivity|].
  destruct (scan_logs fs logs_dir r) as [found evs]. simpl in IH.
  unfold readable_lines at 1.
  destruct (read_text fs (join logs_dir f)) as [content|e]; simpl.
  - now rewrite filter_app, map_app, IH.
  - exact IH.
Qed.

Lemma is_missing_line_iff (line : string) :
  is_missing_line line = true <->
  (exists a b, lower line = a ++ "missing" ++ b)
  /\ (exists a b, lower line = a ++ "torrent" ++ b).
Proof.
  unfold is_missing_line. now rewrite andb_true_iff, !contains_iff.
Qed.

Lemma load_missing_torrents_entries (fs : filesystem) (cfg : UAConfig)
  (p : FilePanel) :
  exists ms,
    file_listbox (fst (load_missing_torrents fs cfg p))
    = app (file_listbox p) (map (fun m => "[MISSING] " ++ m) ms)
    /\ current_files (fst (load_missing_torrents fs cfg p))
       = app (current_files p) ms.
Proof.
  unfold load_missing_torrents.
  destruct (negb (exists_ fs (config_get cfg "PATHS" "logs_dir")));
    [exists []; cbn [fst map]; now rewrite !app_nil_r|].
  destruct (listdir fs (config_get cfg "PATHS" "logs_dir")) as [names|e];
    [|exists []; cbn [fst map]; now rewrite !app_nil_r].
  destruct (scan_logs fs (config_get cfg "PATHS" "logs_dir")
              (filter (fun f => endswith f ".log") names))
    as [missing_files evs].
  exists missing_files. cbn [fst].
  destruct (add_entries (fun m => "[MISSING] " ++ m) (fun m => m)
              missing_files p) as (Hl & Hc & _).
  now rewrite Hl, Hc, map_id.
Qed.

Lemma update_files_entries (fs : filesystem) (cfg : UAConfig)
  (directory : string) (show_missing_only : bool) (p : FilePanel) :
  let p' := fst (fst (update_files fs cfg directory show_missing_only p)) in
  exists es : list (string * string),
    file_listbox p' = map fst es /\ current_files p' = map snd es
    /\ Forall (fun e => entry_matches directory show_missing_only
                          (fst e) (snd e)) es.
Proof.
  cbv zeta. unfold update_files.
  destruct (negb (exists_ fs directory));
    [exists []; repeat split; constructor|].
  destruct show_missing_only.
  - set (p0 := {| current_directory := Some directory; file_listbox := [];
                  curselection := []; current_files := [] |}).
    destruct (load_missing_torrents_entries fs cfg p0) as (ms & Hl & Hc).
    destruct (load_missing_torrents fs cfg p0) as [p1 evs].
    cbn [fst] in *. exists (map (fun m => ("[MISSING] " ++ m, m)) ms).
    rewrite Hl, Hc, !map_map. cbn [fst snd p0 file_listbox current_files app].
    split; [reflexivity|]. split; [now rewrite map_id|].
    apply Forall_forall. intros e He. apply in_map_iff in He.
    destruct He as (m & <- & _). reflexivity.
  - destruct (listdir fs directory) as [names|e].
    + cbn [fst].
      set (files := sort String.leb _).
      match goal with |- context [fold_left _ files ?q] =>
        destruct (add_entries (fun file => file)
                    (fun file => join directory file) files q)
          as (Hl & Hc & _) end.
      exists (map (fun file => (file, join directory file)) files).
      rewrite Hl, Hc, !map_map. cbn [fst snd file_listbox current_files app].
      split; [reflexivity|]. split; [reflexivity|].
      apply Forall_forall. intros e He. apply in_map_iff in He.
      destruct He as (m & <- & _). reflexivity.
    + destruct (is_PermissionError e); exists []; repeat split; constructor.
Qed.

(** C10: after [update_files], in either branch of the filter, the list
    box and [current_files] have the same length, and the label at line
    [i] belongs to the entry stored at index [i], which is what
    [get_selected_file] returns when line [i] is selected: in the plain
    branch the entry is the directory joined with the label, in the
    missing branch the label is [[MISSING] ] followed by the entry. *)
Theorem update_files_aligned (fs : filesystem) (cfg : UAConfig)
  (directory : string) (show_missing_only : bool) (p : FilePanel) :
  let p' := fst (fst (update_files fs cfg directory show_missing_only p)) in
  List.length (file_listbox p') = List.length (current_files p')
  /\ forall (i : nat) (label : string),
       nth_error (file_listbox p') i = Some label ->
       exists path,
         nth_error (current_files p') i = Some path
         /\ get_selected_file (select_index p' (Z.of_nat i)) = Ok (Some path)
         /\ entry_matches directory show_missing_only label path.
Proof.
  cbv zeta.
  destruct (update_files_entries fs cfg directory show_missing_only p)
    as (es & Hl & Hc & Hall).
  rewrite Hl, Hc. split; [now rewrite !length_map|].
  intros i label Hi. rewrite nth_error_map in Hi.
  destruct (nth_error es i) as [[l' path]|] eqn:He; [|discriminate].
  injection Hi as <-.
  exists path. split; [rewrite nth_error_map; now rewrite He|]. split.
  - unfold get_selected_file, select_index, py_getitem.
    cbn [curselection current_files]. rewrite Hc.
    assert (Hlt : (i < List.length (map snd es))%nat).
    { rewrite length_map. apply nth_error_Some. congruence. }
    replace (Z.of_nat i <? Z.of_nat (List.length (map snd es)))%Z
      with true by (symmetry; apply Z.ltb_lt; lia).
    assert (Hge : (Z.of_nat i <? 0)%Z = false) by (apply Z.ltb_ge; lia).
    cbv zeta. rewrite Hge, Hge.
    rewrite Nat2Z.id, nth_error_map, He. reflexivity.
  - rewrite Forall_forall in Hall.
    apply (Hall (l', path)). eapply nth_error_In, He.
Qed.

(** The theorem at [logs_fs]: the first line of the listing of [/data]. *)
Lemma update_files_aligned_witness :
  exists path,
    get_selected_file
      (select_index
         (fst (fst (update_files logs_fs logs_config "/data" false
                      empty_panel))) 0)
    = Ok (Some path)
    /\ path = "/data/Movie.mkv".
Proof.
  destruct (update_files_aligned logs_fs logs_config "/data" false
              empty_panel) as [_ H].
  destruct (H 0%nat "Movie.mkv" eq_refl) as (path & _ & Hsel & Hm).
  exists path. split; [exact Hsel|exact Hm].
Defined.

(** C1, as stated, fails: with the filter on, an existing directory
    argument gives the entries found in the logs, a directory argument
    that does not exist gives none. *)
Lemma missing_listing_depends_on_directory :
  listing (update_files logs_fs logs_config "/data" true empty_panel)
  = (["[MISSING] Missing Torrent: foo.mkv"; "[MISSING] torrentmissingbar"],
     ["Missing Torrent: foo.mkv"; "torrentmissingbar"])
  /\ listing (update_files logs_fs logs_config "/nope" true empty_panel)
     = ([], [])
  /\ listing (update_files logs_fs logs_config "/data" true empty_panel)
     <> listing (update_files logs_fs logs_config "/nope" true empty_panel).
Proof.
  split; [reflexivity|]. split; [reflexivity|]. discriminate.
Qed.

(** C1, amended: with the filter on, any two directory arguments that
    exist give the same listing (and the same events), whatever the panel
    held before; a directory argument that does not exist gives the empty
    listing. *)
Theorem missing_listing_same_for_existing_directories
  (fs : filesystem) (cfg : UAConfig) (d1 d2 : string) (p1 p2 : FilePanel) :
  (exists_ fs d1 = true -> exists_ fs d2 = true ->
   listing (update_files fs cfg d1 true p1)
   = listing (update_files fs cfg d2 true p2)
   /\ snd (fst (update_files fs cfg d1 true p1))
      = snd (fst (update_files fs cfg d2 true p2)))
  /\ (exists_ fs d1 = false ->
      listing (update_files fs cfg d1 true p1) = ([], [])).
Proof.
  unfold listing, update_files. split.
  - intros -> ->. cbn [negb].
    set (q1 := {| current_directory := Some d1; file_listbox := [];
                  curselection := []; current_files := [] |}).
    set (q2 := {| current_directory := Some d2; file_listbox := [];
                  curselection := []; current_files := [] |}).
    destruct (load_missing_torrents_entries fs cfg q1) as (m1 & Hl1 & Hc1).
    destruct (load_missing_torrents_entries fs cfg q2) as (m2 & Hl2 & Hc2).
    assert (Hev : snd (load_missing_torrents fs cfg q1)
                  = snd (load_missing_torrents fs cfg q2)
                  /\ current_files (fst (load_missing_torrents fs cfg q1))
                     = current_files (fst (load_missing_torrents fs cfg q2))).
    { unfold load_missing_torrents.
      destruct (negb (exists_ fs (config_get cfg "PATHS" "logs_dir")));
        [now split|].
      destruct (listdir fs (config_get cfg "PATHS" "logs_dir"));
        [|now split].
      destruct (scan_logs fs _ _) as [missing_files evs]. cbn [fst snd].
      split; [reflexivity|].
      destruct (add_entries (fun m => "[MISSING] " ++ m) (fun m => m)
                  missing_files q1) as (_ & H1 & _).
      destruct (add_entries (fun m => "[MISSING] " ++ m) (fun m => m)
                  missing_files q2) as (_ & H2 & _).
      now rewrite H1, H2. }
    destruct Hev as [Hev Hcur].
    destruct (load_missing_torrents fs cfg q1) as [r1 e1].
    destruct (load_missing_torrents fs cfg q2) as [r2 e2].
    cbn [fst snd] in *. rewrite Hc1, Hc2 in Hcur. cbn in Hcur. subst m2.
    rewrite Hl1, Hl2, Hc1, Hc2. cbn. now subst e2.
  - intros ->. reflexivity.
Qed.

(** The theorem at [logs_fs]: [/data] and [/logs] both exist, [/nope]
    does not. *)
Lemma missing_listing_same_for_existing_directories_witness :
  listing (update_files logs_fs logs_config "/data" true empty_panel)
  = listing (update_files logs_fs logs_config "/logs" true empty_panel)
  /\ listing (update_files logs_fs logs_config "/nope" true empty_panel)
     = ([], []).
Proof.
  split.
  - apply (missing_listing_same_for_existing_directories
             logs_fs logs_config "/data" "/logs" empty_panel empty_panel);
      reflexivity.
  - apply (missing_listing_same_for_existing_directories
             logs_fs logs_config "/nope" "/nope" empty_panel empty_panel).
    reflexivity.
Defined.

(** ** Resolving the selection *)

(** C2: for a selection as the list box reports it, whose indices run
    from 0, [get_selected_file] returns [None] when the index is at least
    the length of [current_files] and the entry at the index when it is
    smaller; it returns an entry only for an index below that length; and
    it returns [None] when nothing is selected. *)
Theorem get_selected_file_in_range (p : FilePanel) :
  (curselection p = [] -> get_selected_file p = Ok None)
  /\ (forall index rest,
        curselection p = index :: rest -> (0 <= index)%Z ->
        ((Z.of_nat (List.length (current_files p)) <= index)%Z ->
         get_selected_file p = Ok None)
        /\ ((index < Z.of_nat (List.length (current_files p)))%Z ->
            exists f,
              nth_error (current_files p) (Z.to_nat index) = Some f
              /\ get_selected_file p = Ok (Some f))
        /\ (forall f,
              get_selected_file p = Ok (Some f) ->
              (index < Z.of_nat (List.length (current_files p)))%Z
              /\ nth_error (current_files p) (Z.to_nat index) = Some f)).
Proof.
  unfold get_selected_file, py_getitem. split.
  - now intros ->.
  - intros index rest -> Hge. cbv zeta.
    assert (Hneg : (index <? 0)%Z = false) by (apply Z.ltb_ge; lia).
    rewrite !Hneg.
    destruct (Z.ltb_spec index (Z.of_nat (List.length (current_files p))))
      as [Hlt|Hle].
    + assert (Hn : (Z.to_nat index < List.length (current_files p))%nat)
        by lia.
      apply nth_error_Some in Hn.
      destruct (nth_error (current_files p) (Z.to_nat index)) as [f|];
        [|congruence].
      split; [lia|]. split; [intros _; now exists f|].
      intros f' [= <-]. now split.
    + split; [reflexivity|]. split; [lia|]. discriminate.
Qed.

(** The theorem at [two_files_panel]: line 1 and line 2. *)
Lemma get_selected_file_in_range_witness :
  (exists f, nth_error (current_files two_files_panel) 1 = Some f
             /\ get_selected_file (select_index two_files_panel 1)
                = Ok (Some f))
  /\ get_selected_file (select_index two_files_panel 2) = Ok None
  /\ get_selected_file two_files_panel = Ok None.
Proof.
  split; [|split].
  - apply (proj2 (get_selected_file_in_range
                    (select_index two_files_panel 1)) 1%Z [] eq_refl);
      simpl; lia.
  - apply (proj2 (get_selected_file_in_range
                    (select_index two_files_panel 2)) 2%Z [] eq_refl);
      simpl; lia.
  - apply (proj1 (get_selected_file_in_range two_files_panel)).
    reflexivity.
Defined.

(** ** Entries read from the logs are not empty *)

Lemma string_length_ind (P : string -> Prop) :
  (forall s, (forall t, (String.length t < String.length s)%nat -> P t)
             -> P s) ->
  forall s, P s.
Proof.
  intros H s.
  assert (Hn : forall n t, (String.length t < n)%nat -> P t).
  { induction n as [|n IH]; intros t Ht; [lia|].
    apply H. intros u Hu. apply IH. lia. }
  apply (Hn (S (String.length s))). lia.
Qed.

Lemma string_length_app (a b : string) :
  String.length (a ++ b) = (String.length a + String.length b)%nat.
Proof. induction a as [|c a IH]; simpl; [reflexivity|now rewrite IH]. Qed.

Lemma string_app_nil_r (s : string) : s ++ EmptyString = s.
Proof. induction s as [|c s IH]; simpl; [reflexivity|now rewrite IH]. Qed.

Lemma string_app_assoc (a b c : string) : (a ++ b) ++ c = a ++ b ++ c.
Proof. induction a as [|x a IH]; simpl; [reflexivity|now rewrite IH]. Qed.

Lemma all_ws_bytes_app (a b : string) :
  all_ws_bytes (a ++ b) = all_ws_bytes a && all_ws_bytes b.
Proof.
  induction a as [|c a IH]; simpl; [reflexivity|].
  now rewrite IH, andb_assoc.
Qed.

Lemma lower_char_ws_byte (c : ascii) : ws_byte c = true -> lower_char c = c.
Proof.
  unfold ws_byte, is_space, lower_char. intro H.
  destruct ((65 <=? nat_of_ascii c)%nat && (nat_of_ascii c <=? 90)%nat)
    eqn:E; [|reflexivity].
  exfalso. apply andb_true_iff in E. destruct E as [E1 E2].
  apply Nat.leb_le in E1, E2.
  apply orb_true_iff in H. destruct H as [H|H].
  - apply orb_true_iff in H. destruct H as [H|H];
      apply andb_true_iff in H; destruct H as [H1 H2];
      apply Nat.leb_le in H1, H2; lia.
  - apply Nat.leb_le in H. lia.
Qed.

Lemma all_ws_bytes_lower (s : string) :
  all_ws_bytes s = true -> lower s = s.
Proof.
  induction s as [|c s IH]; simpl; [reflexivity|].
  intro H. apply andb_true_iff in H. destruct H as [Hc Hs].
  now rewrite (lower_char_ws_byte _ Hc), IH.
Qed.

Lemma is_space_ws_byte (c : ascii) : is_space c = true -> ws_byte c = true.
Proof. unfold ws_byte. now intros ->. Qed.

Lemma high_ws_byte (c : ascii) (n : nat) :
  (nat_of_ascii c =? n)%nat = true -> (128 <= n)%nat -> ws_byte c = true.
Proof.
  intros H Hn. apply Nat.eqb_eq in H. unfold ws_byte.
  apply orb_true_iff. right. apply Nat.leb_le. lia.
Qed.

Lemma is_space2_ws_byte (c1 c2 : ascii) :
  is_space2 c1 c2 = true -> ws_byte c1 = true /\ ws_byte c2 = true.
Proof.
  unfold is_space2. intro H. apply andb_true_iff in H. destruct H as [H1 H2].
  split; [apply (high_ws_byte _ H1); lia|].
  apply orb_true_iff in H2.
  destruct H2 as [H2|H2]; apply (high_ws_byte _ H2); lia.
Qed.

Lemma is_space3_ws_byte (c1 c2 c3 : ascii) :
  is_space3 c1 c2 c3 = true ->
  ws_byte c1 = true /\ ws_byte c2 = true /\ ws_byte c3 = true.
Proof.
  unfold is_space3. cbv zeta. intro H.
  repeat (apply orb_true_iff in H; destruct H as [H|H]);
    repeat (apply andb_true_iff in H; destruct H as [H ?]);
    repeat match goal with
           | K : (_ || _) = true |- _ =>
               apply orb_true_iff in K; destruct K as [K|K]
           | K : (_ && _) = true |- _ =>
               apply andb_true_iff in K; destruct K as [K ?]
           end;
    repeat split;
    try (eapply high_ws_byte; [eassumption|lia]);
    unfold ws_byte; apply orb_true_iff; right;
    match goal with
    | K : (128 <=? _)%nat = true |- _ => exact K
    end.
Qed.

(** White space is made of bytes that no ASCII letter shares. *)
Lemma blank_ws_bytes (s : string) :
  blank s = true -> all_ws_bytes s = true.
Proof.
  induction s as [s IH] using string_length_ind.
  destruct s as [|c1 [|c2 [|c3 r3]]]; simpl; try reflexivity.
  - destruct (is_space c1) eqn:E1; [|discriminate]. intros _.
    now rewrite (is_space_ws_byte _ E1).
  - destruct (is_space c1) eqn:E1.
    + intro H. rewrite (is_space_ws_byte _ E1). simpl.
      apply (IH (String c2 EmptyString)); [simpl; lia|exact H].
    + destruct (is_space2 c1 c2) eqn:E2; [|discriminate]. intros _.
      destruct (is_space2_ws_byte _ _ E2) as [-> ->]. reflexivity.
  - destruct (is_space c1) eqn:E1.
    + intro H. rewrite (is_space_ws_byte _ E1). simpl.
      apply (IH (String c2 (String c3 r3))); [simpl; lia|exact H].
    + destruct (is_space2 c1 c2) eqn:E2.
      * intro H. destruct (is_space2_ws_byte _ _ E2) as [-> ->]. simpl.
        apply (IH (String c3 r3)); [simpl; lia|exact H].
      * intro H. apply andb_true_iff in H. destruct H as [E3 H].
        destruct (is_space3_ws_byte _ _ _ E3) as (-> & -> & ->). simpl.
        apply (IH r3); [simpl; lia|exact H].
Qed.

(** [lstrip] takes away a blank head. *)
Lemma lstrip_split (s : string) :
  exists a, s = a ++ lstrip s /\ blank a = true.
Proof.
  induction s as [s IH] using string_length_ind.
  destruct s as [|c1 r1]; [now exists EmptyString|].
  cbn [lstrip]. destruct (is_space c1) eqn:E1.
  { destruct (IH r1) as (a & Ha & Hb); [simpl; lia|].
    exists (String c1 a). split; [simpl; now rewrite <- Ha|].
    cbn [blank]. now rewrite E1. }
  destruct r1 as [|c2 r2]; [now exists EmptyString|].
  destruct (is_space2 c1 c2) eqn:E2.
  { destruct (IH r2) as (a & Ha & Hb); [simpl; lia|].
    exists (String c1 (String c2 a)). split; [simpl; now rewrite <- Ha|].
    cbn [blank]. now rewrite E1, E2. }
  destruct r2 as [|c3 r3]; [now exists EmptyString|].
  destruct (is_space3 c1 c2 c3) eqn:E3; [|now exists EmptyString].
  destruct (IH r3) as (a & Ha & Hb); [simpl; lia|].
  exists (String c1 (String c2 (String c3 a))).
  split; [simpl; now rewrite <- Ha|].
  cbn [blank]. now rewrite E1, E2, E3.
Qed.

Lemma lstrip_length (s : string) :
  (String.length (lstrip s) <= String.length s)%nat.
Proof.
  destruct (lstrip_split s) as (a & Ha & _).
  rewrite Ha at 2. rewrite string_length_app. lia.
Qed.

(** What [lstrip] returns does not shrink when stripped again. *)
Lemma lstrip_idem (s : string) : lstrip (lstrip s) = lstrip s.
Proof.
  induction s as [s IH] using string_length_ind.
  destruct s as [|c1 r1]; [reflexivity|].
  cbn [lstrip]. destruct (is_space c1) eqn:E1;
    [apply IH; simpl; lia|].
  destruct r1 as [|c2 r2]; [cbn [lstrip]; now rewrite E1|].
  destruct (is_space2 c1 c2) eqn:E2; [apply IH; simpl; lia|].
  destruct r2 as [|c3 r3]; [cbn [lstrip]; now rewrite E1, E2|].
  destruct (is_space3 c1 c2 c3) eqn:E3; [apply IH; simpl; lia|].
  cbn [lstrip]. now rewrite E1, E2, E3.
Qed.

Lemma whitespace_cons (w : string) :
  In w whitespace ->
  (0 < String.length w)%nat
  /\ (forall r, lstrip (w ++ r) = lstrip r)
  /\ (forall r, blank (w ++ r) = blank r).
Proof.
  unfold whitespace. cbn [map]. intro H.
  repeat (destruct H as [<-|H];
          [split; [cbn; lia|split; intro r; reflexivity]|]).
  contradiction.
Qed.

Lemma lstrip_not_starts (s : string) : ~ starts_with_space (lstrip s).
Proof.
  intros (w & r & Hw & Hs).
  destruct (@whitespace_cons w Hw) as (Hlen & Hl & _).
  pose proof (lstrip_idem s) as Hi. rewrite Hs in Hi at 1.
  rewrite Hl in Hi. pose proof (lstrip_length r) as Hr.
  rewrite Hi, Hs, string_length_app in Hr. lia.
Qed.

(** [rstrip] takes away a blank tail, and the longest one. *)
Lemma rstrip_split (s : string) :
  exists c,
    s = rstrip s ++ c /\ blank c = true
    /\ (forall t u, rstrip s = t ++ u -> u <> EmptyString ->
                    blank (u ++ c) = false).
Proof.
  induction s as [|x r (c & Hs & Hc & Hmax)].
  - exists EmptyString. repeat split.
    intros [|y t] u H Hu; [simpl in H; congruence|discriminate].
  - cbn [rstrip]. destruct (blank (String x r)) eqn:E.
    + exists (String x r). repeat split; [exact E|].
      intros [|y t] u H Hu; [simpl in H; congruence|discriminate].
    + exists c. split; [simpl; now rewrite <- Hs|]. split; [exact Hc|].
      intros [|y t] u H Hu.
      * simpl in H. subst u. simpl. now rewrite <- Hs.
      * simpl in H. injection H as _ H. now apply (Hmax t u).
Qed.

Lemma rstrip_not_ends (s : string) : ~ ends_with_space (rstrip s).
Proof.
  intros (w & t & Hw & Hs).
  destruct (@whitespace_cons w Hw) as (Hlen & _ & Hb).
  destruct (rstrip_split s) as (c & _ & Hc & Hmax).
  assert (Hne : w <> EmptyString) by (destruct w; [simpl in Hlen; lia|discriminate]).
  pose proof (Hmax t w Hs Hne) as H. rewrite Hb in H. congruence.
Qed.

Lemma rstrip_nil (s : string) : rstrip s = EmptyString -> blank s = true.
Proof.
  destruct s as [|c r]; [reflexivity|]. cbn [rstrip].
  destruct (blank (String c r)); [reflexivity|discriminate].
Qed.

(** A line is its stripped text between a blank head and a blank tail. *)
Lemma strip_split (s : string) :
  exists a c, s = a ++ strip s ++ c /\ blank a = true /\ blank c = true.
Proof.
  destruct (lstrip_split s) as (a & Hs & Ha).
  destruct (rstrip_split (lstrip s)) as (c & Hl & Hc & _).
  exists a, c. unfold strip. now rewrite <- Hl.
Qed.

(** What [strip] returns has no white space at either end. *)
Lemma strip_no_space_at_ends (s : string) :
  ~ starts_with_space (strip s) /\ ~ ends_with_space (strip s).
Proof.
  split; [|apply rstrip_not_ends].
  intros (w & r & Hw & Hs). unfold strip in Hs.
  destruct (rstrip_split (lstrip s)) as (c & Hl & _).
  apply (lstrip_not_starts s). exists w, (r ++ c). split; [exact Hw|].
  rewrite Hl at 1. rewrite Hs. clear.
  induction w as [|x w IH]; simpl; [reflexivity|now rewrite IH].
Qed.

(** ** White space, as the statements name it and as [strip] tests it *)

Ltac in_whitespace :=
  solve [unfold whitespace; cbn [map];
         repeat (first [left; reflexivity | right])].

Lemma ascii_of_code (c : ascii) (n : nat) :
  nat_of_ascii c = n -> c = ascii_of_nat n.
Proof. intros <-. symmetry. apply ascii_nat_embedding. Qed.

Lemma is_space_whitespace (c : ascii) :
  is_space c = true -> In (String c EmptyString) whitespace.
Proof.
  unfold is_space. cbv zeta. intro H.
  assert (Hn : exists n, nat_of_ascii c = n
                         /\ ((9 <= n <= 13)%nat \/ (28 <= n <= 32)%nat)).
  { exists (nat_of_ascii c). split; [reflexivity|].
    apply orb_true_iff in H. destruct H as [H|H];
      apply andb_true_iff in H; destruct H as [H1 H2];
      apply Nat.leb_le in H1, H2; lia. }
  destruct Hn as (n & Hc & Hn). apply ascii_of_code in Hc. subst c.
  assert (Hcases : (n = 9 \/ n = 10 \/ n = 11 \/ n = 12 \/ n = 13
                    \/ n = 28 \/ n = 29 \/ n = 30 \/ n = 31 \/ n = 32)%nat)
    by lia.
  repeat (destruct Hcases as [->|Hcases]; [in_whitespace|]).
  subst n. in_whitespace.
Qed.

Lemma is_space2_whitespace (c1 c2 : ascii) :
  is_space2 c1 c2 = true ->
  In (String c1 (String c2 EmptyString)) whitespace.
Proof.
  unfold is_space2. intro H. apply andb_true_iff in H.
  destruct H as [H1 H2]. apply Nat.eqb_eq, ascii_of_code in H1. subst c1.
  apply orb_true_iff in H2.
  destruct H2 as [H2|H2]; apply Nat.eqb_eq, ascii_of_code in H2; subst c2;
    in_whitespace.
Qed.

Lemma is_space3_whitespace (c1 c2 c3 : ascii) :
  is_space3 c1 c2 c3 = true ->
  In (String c1 (String c2 (String c3 EmptyString))) whitespace.
Proof.
  unfold is_space3. cbv zeta. intro H.
  assert (Hn : exists n1 n2 n3,
             nat_of_ascii c1 = n1 /\ nat_of_ascii c2 = n2
             /\ nat_of_ascii c3 = n3
             /\ ((n1 = 225 /\ n2 = 154 /\ n3 = 128)
                 \/ (n1 = 226 /\ n2 = 128
                     /\ ((128 <= n3 <= 138) \/ n3 = 168 \/ n3 = 169
                         \/ n3 = 175))
                 \/ (n1 = 226 /\ n2 = 129 /\ n3 = 159)
                 \/ (n1 = 227 /\ n2 = 128 /\ n3 = 128))%nat).
  { exists (nat_of_ascii c1), (nat_of_ascii c2), (nat_of_ascii c3).
    repeat (split; [reflexivity|]).
    repeat match goal with
           | K : (_ || _) = true |- _ =>
               apply orb_true_iff in K; destruct K as [K|K]
           | K : (_ && _) = true |- _ =>
               apply andb_true_iff in K; destruct K as [K ?]
           | K : (_ =? _)%nat = true |- _ => apply Nat.eqb_eq in K
           | K : (_ <=? _)%nat = true |- _ => apply Nat.leb_le in K
           end; lia. }
  destruct Hn as (n1 & n2 & n3 & H1 & H2 & H3 & Hn).
  apply ascii_of_code in H1, H2, H3. subst c1 c2 c3.
  destruct Hn as [(-> & -> & ->)|[(-> & -> & Hn)|[(-> & -> & ->)
                                                 |(-> & -> & ->)]]];
    try in_whitespace.
  assert (Hcases : (n3 = 128 \/ n3 = 129 \/ n3 = 130 \/ n3 = 131
                    \/ n3 = 132 \/ n3 = 133 \/ n3 = 134 \/ n3 = 135
                    \/ n3 = 136 \/ n3 = 137 \/ n3 = 138 \/ n3 = 168
                    \/ n3 = 169 \/ n3 = 175)%nat)
    by lia.
  repeat (destruct Hcases as [->|Hcases]; [in_whitespace|]).
  subst n3. in_whitespace.
Qed.

Lemma white_one (w : string) : In w whitespace -> white w.
Proof.
  intro H. rewrite <- (string_app_nil_r w).
  apply white_cons; [exact H|apply white_nil].
Qed.


(** What [blank] accepts is made of white space characters, and what is
    made of them [blank] accepts. *)
Lemma blank_white (s : string) : blank s = true <-> white s.
Proof.
  split.
  - induction s as [s IH] using string_length_ind.
    destruct s as [|c1 r1]; [intros _; apply white_nil|].
    cbn [blank]. destruct (is_space c1) eqn:E1.
    { intro H. change (white (String c1 EmptyString ++ r1)).
      apply white_cons; [now apply is_space_whitespace|].
      apply IH; [simpl; lia|exact H]. }
    destruct r1 as [|c2 r2]; [discriminate|].
    destruct (is_space2 c1 c2) eqn:E2.
    { intro H. change (white (String c1 (String c2 EmptyString) ++ r2)).
      apply white_cons; [now apply is_space2_whitespace|].
      apply IH; [simpl; lia|exact H]. }
    destruct r2 as [|c3 r3]; [discriminate|].
    destruct (is_space3 c1 c2 c3) eqn:E3; [|discriminate].
    intro H.
    change (white (String c1 (String c2 (String c3 EmptyString)) ++ r3)).
    apply white_cons; [now apply is_space3_whitespace|].
    apply IH; [simpl; lia|exact H].
  - intro H. induction H as [|w r Hw Hr IH]; [reflexivity|].
    destruct (@whitespace_cons w Hw) as (_ & _ & Hb). now rewrite Hb.
Qed.



(** [strip s] is [s] without a white head and a white tail, and has no
    white space character left at either end. *)
Lemma strip_spec (s : string) :
  exists lead trail,
    s = lead ++ strip s ++ trail /\ white lead /\ white trail
    /\ ~ starts_with_space (strip s) /\ ~ ends_with_space (strip s).
Proof.
  destruct (strip_split s) as (a & c & Hs & Ha & Hc).
  destruct (strip_no_space_at_ends s) as [H1 H2].
  exists a, c. repeat split; try assumption; now apply blank_white.
Qed.

(** A line that passes the test of line 274 is not stripped to nothing. *)
Lemma missing_line_not_blank (line : string) :
  is_missing_line line = true -> truthy (strip line) = true.
Proof.
  intro H. destruct (strip line) eqn:E; [|reflexivity]. exfalso.
  destruct (strip_split line) as (a & c & Hs & Ha & Hc).
  rewrite E in Hs. simpl in Hs.
  apply blank_ws_bytes in Ha, Hc.
  assert (Hall : all_ws_bytes line = true)
    by (rewrite Hs, all_ws_bytes_app, Ha, Hc; reflexivity).
  apply is_missing_line_iff in H. destruct H as [(pre & post & H) _].
  rewrite (all_ws_bytes_lower _ Hall) in H.
  rewrite H, !all_ws_bytes_app in Hall.
  apply andb_true_iff in Hall. destruct Hall as [_ Hall]. discriminate.
Qed.

(** ** The lines that the missing-only listing shows *)

(** C9, as stated, fails: with the filter on and a directory argument
    that does not exist nothing is listed, although two lines of the log
    hold both tokens. *)
Lemma missing_lines_unlisted_without_directory :
  filter is_missing_line (flat_map (readable_lines logs_fs "/logs") ["run.log"])
  = ["Missing Torrent: foo.mkv"; "torrentmissingbar"]
  /\ exists_ logs_fs "/nope" = false
  /\ file_listbox
       (fst (fst (update_files logs_fs logs_config "/nope" true empty_panel)))
     = [].
Proof. repeat split; reflexivity. Qed.

(** C9, amended: with the filter on, a directory argument that exists and
    a logs directory that exists and can be listed, [update_files] lists
    one entry per line of the readable [.log] files (files in [os.listdir]
    order, lines in file order) whose lower-cased text contains both
    [missing] and [torrent], and nothing else. The stored entry is the
    line without the white space before and after it (the line is the
    entry between two runs of white space characters, and the entry has
    none at either end); the label is [[MISSING] ] followed by the entry.
    On the one-file scenario exactly the 2nd and 3rd lines are listed. *)
Theorem update_files_lists_missing_lines
  (fs : filesystem) (cfg : UAConfig) (directory : string) (p : FilePanel)
  (names : list string) :
  let logs_dir := config_get cfg "PATHS" "logs_dir" in
  exists_ fs directory = true ->
  exists_ fs logs_dir = true ->
  listdir fs logs_dir = Ok names ->
  let log_files := filter (fun f => endswith f ".log") names in
  let lines := flat_map (readable_lines fs logs_dir) log_files in
  let found := filter is_missing_line lines in
  let p' := fst (fst (update_files fs cfg directory true p)) in
  file_listbox p' = map (fun line => "[MISSING] " ++ strip line) found
  /\ current_files p' = map strip found
  /\ (forall line,
        In line found <->
        In line lines
        /\ (exists a b, lower line = a ++ "missing" ++ b)
        /\ (exists a b, lower line = a ++ "torrent" ++ b))
  /\ (forall line,
        In line found ->
        exists lead trail,
          line = lead ++ strip line ++ trail /\ white lead /\ white trail
          /\ trimmed (strip line))
  /\ file_listbox
       (fst (fst (update_files logs_fs logs_config "/data" true empty_panel)))
     = ["[MISSING] Missing Torrent: foo.mkv"; "[MISSING] torrentmissingbar"].
Proof.
  cbv zeta. intros Hdir Hex Hls. unfold update_files, load_missing_torrents.
  rewrite Hdir, Hex, Hls. cbn [negb].
  pose proof (scan_logs_found fs (config_get cfg "PATHS" "logs_dir")
                (filter (fun f => endswith f ".log") names)) as Hfound.
  destruct (scan_logs fs (config_get cfg "PATHS" "logs_dir")
              (filter (fun f => endswith f ".log") names))
    as [missing_files evs].
  cbn [fst] in Hfound |- *.
  match goal with |- context [fold_left _ missing_files ?q] =>
    destruct (add_entries (fun m => "[MISSING] " ++ m) (fun m => m)
                missing_files q) as (Hl & Hc & _) end.
  rewrite Hl, Hc, map_id, Hfound, map_map.
  cbn [file_listbox current_files app].
  split; [reflexivity|]. split; [reflexivity|]. split; [|split].
  - intro line. rewrite filter_In, is_missing_line_iff. tauto.
  - intros line Hin. apply filter_In in Hin. destruct Hin as [_ Hm].
    destruct (strip_spec line) as (lead & trail & Heq & Hw1 & Hw2 & Hs & He).
    exists lead, trail. split; [exact Heq|]. split; [exact Hw1|].
    split; [exact Hw2|]. split; [|now split].
    now apply missing_line_not_blank.
  - reflexivity.
Qed.

(** The theorem at [padded_logs_fs]: the one line that holds both tokens
    is listed without the no-break space and the blank before it and the
    ideographic space and the tab after it. *)
Lemma update_files_lists_missing_lines_witness :
  listing (update_files padded_logs_fs logs_config "/data" true empty_panel)
  = (["[MISSING] Missing Torrent: foo.mkv"], ["Missing Torrent: foo.mkv"]).
Proof.
  destruct (@update_files_lists_missing_lines
              padded_logs_fs logs_config "/data" empty_panel ["run.log"]
              eq_refl eq_refl eq_refl) as (Hl & Hc & _).
  unfold listing. rewrite Hl, Hc. reflexivity.
Defined.

Lemma missing_entries_not_blank (fs : filesystem) (cfg : UAConfig)
  (directory : string) (p : FilePanel) (m : string) :
  In m (current_files (fst (fst (update_files fs cfg directory true p)))) ->
  truthy m = true.
Proof.
  unfold update_files.
  destruct (negb (exists_ fs directory)); [intros []|].
  set (p0 := {| current_directory := Some directory; file_listbox := [];
                curselection := []; current_files := [] |}).
  unfold load_missing_torrents.
  destruct (negb (exists_ fs (config_get cfg "PATHS" "logs_dir")));
    [intros []|].
  destruct (listdir fs (config_get cfg "PATHS" "logs_dir")) as [names|e];
    [|intros []].
  pose proof (scan_logs_found fs (config_get cfg "PATHS" "logs_dir")
                (filter (fun f => endswith f ".log") names)) as Hfound.
  destruct (scan_logs fs _ _) as [missing_files evs]. cbn [fst] in *.
  destruct (add_entries (fun x => "[MISSING] " ++ x) (fun x => x)
              missing_files p0) as (_ & Hc & _).
  rewrite Hc, map_id, Hfound. cbn [p0 current_files app].
  intro Hin. apply in_map_iff in Hin. destruct Hin as (line & <- & Hl).
  apply filter_In in Hl. now apply missing_line_not_blank.
Qed.

(** ** Rename and launch on an entry read from the logs *)

Lemma get_selected_file_at (q : FilePanel) (i : nat) (m : string) :
  nth_error (current_files q) i = Some m ->
  get_selected_file (select_index q (Z.of_nat i)) = Ok (Some m).
Proof.
  intro H. unfold get_selected_file, select_index, py_getitem.
  cbn [curselection current_files].
  assert (Hlt : (i < List.length (current_files q))%nat)
    by (apply nth_error_Some; congruence).
  assert (H1 : (Z.of_nat i <? Z.of_nat (List.length (current_files q)))%Z
               = true) by (apply Z.ltb_lt; lia).
  assert (H2 : (Z.of_nat i <? 0)%Z = false) by (apply Z.ltb_ge; lia).
  cbv zeta. now rewrite H1, !H2, Nat2Z.id, H.
Qed.

(** C3, as stated, fails: with an entry read from the logs selected,
    [rename_file] asks for the new name and calls [os.rename] on the log
    line, and [launch_upload_assistant] opens the arguments dialog; neither
    reports an unsupported operation. *)
Lemma missing_entry_rename_attempted :
  get_selected_file missing_panel = Ok (Some "Missing Torrent: foo.mkv")
  /\ snd (fst (rename_file bare_host logs_fs logs_config (Some "foo.mkv")
                 missing_panel))
     = [AskString "Rename File"
          "Enter new name for 'Missing Torrent: foo.mkv':"
          "Missing Torrent: foo.mkv";
        OsRename "Missing Torrent: foo.mkv" "foo.mkv";
        ShowError "Error"
          "Failed to rename file: No such file or directory"]
  /\ hd_error (fst (launch_upload_assistant bare_host logs_config
                      missing_panel))
     = Some (OpenArgsDialog "Missing Torrent: foo.mkv").
Proof. repeat split; reflexivity. Qed.

(** C3, amended: the code keeps no kind of entry. With line [i] of the
    missing-only listing selected and a non-empty new name other than the
    entry's basename, [rename_file] asks for the name and calls
    [os.rename] from the entry to the new name in the entry's directory.
    When [os.rename] raises, the failure is shown in one error box, the
    file system and the panel are as before and nothing is raised. When it
    succeeds the panel is refreshed and a [Success] box, or the error box
    of the refresh, ends the events, and nothing is raised.
    [launch_upload_assistant] opens the arguments dialog on the entry, as
    its only event, and raises nothing. Only an empty selection is turned
    down, with a warning and nothing else. *)
Theorem missing_entry_not_rejected (pf : platform) (fs : filesystem)
  (cfg : UAConfig) (directory : string) (p0 : FilePanel) (i : nat)
  (m new_name : string) :
  let p :=
    select_index (fst (fst (update_files fs cfg directory true p0)))
      (Z.of_nat i) in
  let ask :=
    AskString "Rename File"
      ("Enter new name for '" ++ basename m ++ "':") (basename m) in
  let new_path := join (dirname m) new_name in
  nth_error (current_files p) i = Some m ->
  truthy new_name = true ->
  new_name <> basename m ->
  (forall e,
     os_rename pf fs m new_path = Raise e ->
     rename_file pf fs cfg (Some new_name) p
     = (fs, p,
        [ask; OsRename m new_path;
         ShowError "Error" ("Failed to rename file: " ++ exn_str e)],
        None))
  /\ (forall fs',
        os_rename pf fs m new_path = Ok fs' ->
        rename_file pf fs cfg (Some new_name) p
        = (fs', fst (fst (refresh_files fs' cfg p)),
           app (ask :: OsRename m new_path
                    :: snd (fst (refresh_files fs' cfg p)))
             [match snd (refresh_files fs' cfg p) with
              | None =>
                  ShowInfo "Success"
                    ("Renamed '" ++ basename m ++ "' to '" ++ new_name
                     ++ "'")
              | Some e =>
                  ShowError "Error" ("Failed to rename file: " ++ exn_str e)
              end],
           None))
  /\ launch_upload_assistant pf cfg p = ([OpenArgsDialog m], None)
  /\ (forall q answer,
        curselection q = [] ->
        rename_file pf fs cfg answer q
        = (fs, q, [ShowWarning "Warning" "Please select a file to rename"],
           None)
        /\ launch_upload_assistant pf cfg q
           = ([ShowWarning "Warning"
                 "Please select a file for upload assistant"], None)).
Proof.
  cbv zeta. intros Hnth Hnew Hne.
  cbn [select_index current_files] in Hnth.
  pose proof (get_selected_file_at _ _ Hnth) as Hsel.
  assert (Hm : truthy m = true).
  { apply (missing_entries_not_blank fs cfg directory p0).
    eapply nth_error_In, Hnth. }
  apply String.eqb_neq in Hne.
  split; [|split; [|split]].
  - intros e He. unfold rename_file. rewrite Hsel. cbn [no_selection].
    rewrite Hm, Hnew, Hne. cbn [negb andb]. now rewrite He.
  - intros fs' Hok. unfold rename_file. rewrite Hsel. cbn [no_selection].
    rewrite Hm, Hnew, Hne. cbn [negb andb]. rewrite Hok.
    now destruct (refresh_files fs' cfg _) as [[p' evs] ex].
  - unfold launch_upload_assistant. rewrite Hsel. cbn [no_selection].
    rewrite Hm. reflexivity.
  - intros q answer Hq.
    unfold rename_file, launch_upload_assistant, get_selected_file.
    rewrite Hq. now split.
Qed.

(** The theorem at [logs_fs], first line of the missing-only listing, on a
    host where the renamed path does not exist. *)
Lemma missing_entry_not_rejected_witness :
  rename_file bare_host logs_fs logs_config (Some "foo.mkv") missing_panel
  = (logs_fs, missing_panel,
     [AskString "Rename File"
        "Enter new name for 'Missing Torrent: foo.mkv':"
        "Missing Torrent: foo.mkv";
      OsRename "Missing Torrent: foo.mkv" "foo.mkv";
      ShowError "Error" "Failed to rename file: No such file or directory"],
     None).
Proof.
  apply (proj1 (@missing_entry_not_rejected bare_host logs_fs logs_config
                  "/data" empty_panel 0 "Missing Torrent: foo.mkv" "foo.mkv"
                  eq_refl eq_refl
                  ltac:(discriminate))
           (FileNotFoundError "No such file or directory")).
  reflexivity.
Defined.

(** ** Command building *)

Lemma add_arg_spec (cmd : list string) (kv : string * value) :
  add_arg cmd kv = app cmd (spec_flags kv).
Proof.
  destruct kv as [key [[|]|[|c s]]]; unfold add_arg, spec_flags; simpl;
    try reflexivity; now rewrite app_nil_r.
Qed.

Lemma fold_add_arg (args : dict value) (cmd : list string) :
  fold_left add_arg args cmd = app cmd (flat_map spec_flags args).
Proof.
  revert cmd. induction args as [|kv args IH]; intro cmd; simpl.
  - now rewrite app_nil_r.
  - now rewrite IH, add_arg_spec, <- app_assoc.
Qed.

(** C5: the command is the executable, the target path, and then for each
    key of the bag [--key] when its value is boolean true, [--key value]
    when its value is a non-empty string, and nothing when it is boolean
    false or the empty string; a bag of empty and false values gives the
    executable and the target path alone; the bag with [tmdb] 123,
    [freeleech] true and an empty [tag] gives the flags [--tmdb 123
    --freeleech]. *)
Theorem build_cmd_flags (ua_path file_path : string) (args : dict value) :
  build_cmd ua_path file_path args
  = ua_path :: file_path :: flat_map spec_flags args
  /\ (forall cmd key,
        add_arg cmd (key, VBool true) = app cmd ["--" ++ key]
        /\ add_arg cmd (key, VBool false) = cmd
        /\ add_arg cmd (key, VStr "") = cmd
        /\ forall s, s <> "" ->
                     add_arg cmd (key, VStr s) = app cmd ["--" ++ key; s])
  /\ (Forall (fun kv => snd kv = VBool false \/ snd kv = VStr "") args ->
      build_cmd ua_path file_path args = [ua_path; file_path])
  /\ build_cmd ua_path file_path
       [("tmdb", VStr "123"); ("freeleech", VBool true); ("tag", VStr "")]
     = [ua_path; file_path; "--tmdb"; "123"; "--freeleech"].
Proof.
  unfold build_cmd. split; [apply fold_add_arg|].
  split; [|split; [|reflexivity]].
  - intros cmd key. repeat split. intros [|c s] Hs; [now elim Hs|].
    reflexivity.
  - intro Hall. rewrite fold_add_arg.
    replace (flat_map spec_flags args) with (@nil string); [reflexivity|].
    induction Hall as [|[key v] args [Hv|Hv] _ IH]; simpl in *;
      [reflexivity| |]; subst v; exact IH.
Qed.

(** The theorem at a bag whose values are all empty or false. *)
Lemma build_cmd_flags_witness :
  build_cmd "upload-assistant" "/data/Movie.mkv"
    [("tmdb", VStr ""); ("freeleech", VBool false)]
  = ["upload-assistant"; "/data/Movie.mkv"].
Proof.
  apply (build_cmd_flags "upload-assistant" "/data/Movie.mkv"
           [("tmdb", VStr ""); ("freeleech", VBool false)]).
  constructor; [right; reflexivity|].
  constructor; [left; reflexivity|constructor].
Defined.

(** ** Order of the flags *)

Lemma dict_set_new (V : Type) (d : dict V) (k : string) (v : V) :
  assoc k d = None -> dict_set d k v = app d [(k, v)].
Proof.
  induction d as [|[k' v'] d IH]; simpl; [reflexivity|].
  destruct (k' =? k); [discriminate|]. intro H. now rewrite IH.
Qed.

Lemma assoc_app_None (V : Type) (k : string) (d1 d2 : dict V) :
  assoc k d1 = None -> assoc k d2 = None -> assoc k (app d1 d2) = None.
Proof.
  induction d1 as [|[k' v'] d1 IH]; simpl; [auto|].
  destruct (k' =? k); [discriminate|]. exact IH.
Qed.

Lemma assoc_result_item (k : string) (kv : string * tkvar) :
  fst kv <> k -> assoc k (result_item kv) = None.
Proof.
  intro H. apply String.eqb_neq in H.
  destruct kv as [k' [s|b]]; unfold result_item; simpl in *.
  - destruct (truthy (strip s)); simpl; [now rewrite H|reflexivity].
  - now rewrite H.
Qed.

(** Lines 511-518 add the items of the variables one after the other. *)
Lemma launch_result_fold (vars : dict tkvar) (acc : dict value) :
  NoDup (map fst vars) ->
  (forall k, In k (map fst vars) -> assoc k acc = None) ->
  fold_left launch_step vars acc = app acc (flat_map result_item vars).
Proof.
  revert acc. induction vars as [|[k var] vars IH]; intros acc Hnd Hacc;
    simpl.
  - now rewrite app_nil_r.
  - inversion Hnd as [|? ? Hk Hnd']; subst.
    assert (Hnew : assoc k acc = None) by (apply Hacc; now left).
    assert (Hstep : forall item,
               (forall k', In k' (map fst vars) ->
                           assoc k' (app acc (result_item (k, item))) = None)).
    { intros item k' Hin. apply assoc_app_None.
      - apply Hacc. now right.
      - apply assoc_result_item. simpl. intros ->. contradiction. }
    destruct var as [s|b]; simpl.
    + specialize (Hstep (StringVar s)). unfold result_item in *. simpl in *.
      destruct (truthy (strip s)).
      * rewrite (@dict_set_new _ _ _ _ Hnew), (IH _ Hnd' Hstep).
        now rewrite <- app_assoc.
      * apply IH; [exact Hnd'|]. intros k' Hin. apply Hacc. now right.
    + specialize (Hstep (BooleanVar b)). unfold result_item in *. simpl in *.
      rewrite (@dict_set_new _ _ _ _ Hnew), (IH _ Hnd' Hstep).
      now rewrite <- app_assoc.
Qed.

(** C4, as stated, fails: the same two arguments set in different orders
    give different commands. *)
Lemma build_cmd_depends_on_insertion_order :
  Permutation bag_tmdb_first bag_freeleech_first
  /\ build_cmd "upload-assistant" "/data/Movie.mkv" bag_tmdb_first
     = ["upload-assistant"; "/data/Movie.mkv"; "--tmdb"; "123";
        "--freeleech"]
  /\ build_cmd "upload-assistant" "/data/Movie.mkv" bag_freeleech_first
     = ["upload-assistant"; "/data/Movie.mkv"; "--freeleech"; "--tmdb";
        "123"].
Proof.
  split; [apply perm_swap|]. split; reflexivity.
Qed.

(** C4, amended: the flags come in the insertion order of the bag: a key
    set last, when the bag did not hold it, has its flags last. The bag
    that the arguments dialog builds takes its keys in the order of the
    dialog's variables, which is always the text keys and then the boolean
    keys as declared, so the command for it follows that order. *)
Theorem flags_follow_insertion_order (ua_path file_path : string) :
  (forall (bag : dict value) k v,
      assoc k bag = None ->
      build_cmd ua_path file_path (dict_set bag k v)
      = app (build_cmd ua_path file_path bag) (spec_flags (k, v)))
  /\ (forall vars : dict tkvar,
        NoDup (map fst vars) ->
        build_cmd ua_path file_path (launch_result vars)
        = ua_path :: file_path
          :: flat_map (fun kv => flat_map spec_flags (result_item kv)) vars)
  /\ (forall cfg, map fst (create_arg_widgets cfg) = app ua_args boolean_args)
  /\ NoDup (app ua_args boolean_args).
Proof.
  split; [|split; [|split]].
  - intros bag k v Hk. unfold build_cmd.
    rewrite (@dict_set_new _ _ _ _ Hk), !fold_add_arg, flat_map_app. simpl.
    now rewrite app_nil_r.
  - intros vars Hnd. unfold build_cmd, launch_result.
    rewrite fold_add_arg, (@launch_result_fold vars [] Hnd)
      by (intros; reflexivity).
    simpl. f_equal. f_equal.
    induction vars as [|kv vars IH]; simpl; [reflexivity|].
    rewrite flat_map_app. f_equal. apply IH. now inversion Hnd.
  - intro cfg. reflexivity.
  - unfold ua_args, boolean_args. simpl app.
    repeat (constructor; [simpl; intuition discriminate|]). constructor.
Qed.

(** The theorem at a bag holding [tmdb] to which [freeleech] is added,
    and at a dialog with these two variables. *)
Lemma flags_follow_insertion_order_witness :
  build_cmd "upload-assistant" "/data/Movie.mkv"
    (dict_set [("tmdb", VStr "123")] "freeleech" (VBool true))
  = ["upload-assistant"; "/data/Movie.mkv"; "--tmdb"; "123"; "--freeleech"]
  /\ build_cmd "upload-assistant" "/data/Movie.mkv"
       (launch_result [("tmdb", StringVar " 123 ");
                       ("freeleech", BooleanVar true)])
     = ["upload-assistant"; "/data/Movie.mkv"; "--tmdb"; "123";
        "--freeleech"].
Proof.
  destruct (flags_follow_insertion_order "upload-assistant" "/data/Movie.mkv")
    as (H1 & H2 & _ & _).
  split.
  - rewrite (H1 [("tmdb", VStr "123")] "freeleech" (VBool true) eq_refl).
    reflexivity.
  - rewrite H2; [reflexivity|].
    constructor; [simpl; intros [H|[]]; discriminate|].
    constructor; [intros []|constructor].
Defined.

(** * Further properties of the code *)

(** ** The plain listing *)

Lemma string_sort_sorted (l : list string) :
  StronglySorted str_le (sort String.leb l).
Proof.
  apply Sorted_StronglySorted.
  - intros a b c. apply str_le_trans.
  - apply sort_Sorted, string_leb_false_total.
Qed.

Lemma update_files_fields (fs : filesystem) (cfg : UAConfig)
  (directory : string) (show_missing_only : bool) (p : FilePanel) :
  let p' := fst (fst (update_files fs cfg directory show_missing_only p)) in
  curselection p' = [] /\ current_directory p' = Some directory.
Proof.
  cbv zeta. unfold update_files.
  destruct (negb (exists_ fs directory)); [now split|].
  destruct show_missing_only.
  - unfold load_missing_torrents.
    destruct (negb (exists_ fs (config_get cfg "PATHS" "logs_dir")));
      [now split|].
    destruct (listdir fs (config_get cfg "PATHS" "logs_dir"));
      [|now split].
    destruct (scan_logs fs _ _) as [missing_files evs]. cbn [fst].
    match goal with |- context [fold_left _ missing_files ?q] =>
      destruct (add_entries (fun m => "[MISSING] " ++ m) (fun m => m)
                  missing_files q) as (_ & _ & H1 & H2) end.
    now rewrite H1, H2.
  - destruct (listdir fs directory) as [names|e].
    + cbn [fst]. set (files := sort String.leb _).
      match goal with |- context [fold_left _ files ?q] =>
        destruct (add_entries (fun file => file)
                    (fun file => join directory file) files q)
          as (_ & _ & H1 & H2) end.
      now rewrite H1, H2.
    + destruct (is_PermissionError e); now split.
Qed.

(** X1: with the filter off, on a directory that exists and can be
    listed, [update_files] shows the names that [os.listdir] gave and that
    are files or directories, each once per occurrence, in byte order; the
    entry stored for a label is the directory joined with the label; no
    message is shown and nothing is raised. *)
Theorem update_files_plain_listing (fs : filesystem) (cfg : UAConfig)
  (directory : string) (p : FilePanel) (names : list string) :
  exists_ fs directory = true ->
  listdir fs directory = Ok names ->
  let r := update_files fs cfg directory false p in
  let kept :=
    filter (fun item => isfile fs (join directory item)
                        || isdir fs (join directory item)) names in
  StronglySorted str_le (file_listbox (fst (fst r)))
  /\ Permutation kept (file_listbox (fst (fst r)))
  /\ current_files (fst (fst r))
     = map (join directory) (file_listbox (fst (fst r)))
  /\ snd (fst r) = [] /\ snd r = None.
Proof.
  cbv zeta. intros Hex Hls. unfold update_files. rewrite Hex, Hls.
  cbn [negb fst snd]. set (files := sort String.leb _).
  match goal with |- context [fold_left _ files ?q] =>
    destruct (add_entries (fun file => file)
                (fun file => join directory file) files q)
      as (Hl & Hc & _) end.
  rewrite Hl, Hc, map_id. cbn [file_listbox current_files app].
  split; [apply string_sort_sorted|]. split; [apply sort_perm|].
  repeat split.
Qed.

(** The theorem at [/data] of [logs_fs]. *)
Lemma update_files_plain_listing_witness :
  Permutation ["show"; "Movie.mkv"]
    (file_listbox
       (fst (fst (update_files logs_fs logs_config "/data" false
                    empty_panel)))).
Proof.
  apply (update_files_plain_listing logs_fs logs_config "/data" empty_panel
           (names := ["show"; "Movie.mkv"]) eq_refl eq_refl).
Defined.

(** X2: with the filter off, [update_files] lets an exception escape
    exactly when the directory exists and [os.listdir] raises something
    other than a [PermissionError]; then nothing is listed and no message
    is shown. A [PermissionError] is turned into one error box and an
    empty listing. *)
Theorem update_files_raises_iff (fs : filesystem) (cfg : UAConfig)
  (directory : string) (p : FilePanel) :
  (forall e,
      snd (update_files fs cfg directory false p) = Some e
      <-> exists_ fs directory = true
          /\ listdir fs directory = Raise e /\ is_PermissionError e = false)
  /\ (forall e,
        snd (update_files fs cfg directory false p) = Some e ->
        listing (update_files fs cfg directory false p) = ([], [])
        /\ snd (fst (update_files fs cfg directory false p)) = [])
  /\ (forall m,
        exists_ fs directory = true ->
        listdir fs directory = Raise (PermissionError m) ->
        listing (update_files fs cfg directory false p) = ([], [])
        /\ snd (fst (update_files fs cfg directory false p))
           = [ShowError "Error" ("Permission denied accessing: " ++ directory)]
        /\ snd (update_files fs cfg directory false p) = None).
Proof.
  unfold listing, update_files.
  destruct (exists_ fs directory); cbn [negb].
  2:{ split; [|split]; try discriminate.
      intro e. split; [discriminate|]. intros (H & _). discriminate. }
  destruct (listdir fs directory) as [names|e0].
  - cbn [snd fst]. split; [|split]; try discriminate.
    intro e. split; [discriminate|]. intros (_ & H & _). discriminate.
  - destruct (is_PermissionError e0) eqn:Ep; cbn [snd fst].
    + split; [|split]; try discriminate.
      * intro e. split; [discriminate|]. intros (_ & [= <-] & H).
        congruence.
      * intros m _ [= ->]. now repeat split.
    + split; [|split].
      * intro e. split.
        -- intros [= <-]. now repeat split.
        -- intros (_ & [= <-] & _). reflexivity.
      * intros e _. now split.
      * intros m _ [= ->]. discriminate.
Qed.

(** The theorem at [logs_fs]: listing the regular file
    [/data/Movie.mkv] raises. *)
Lemma update_files_raises_iff_witness :
  snd (update_files logs_fs logs_config "/data/Movie.mkv" false empty_panel)
  = Some (OSError "Not a directory").
Proof.
  apply (update_files_raises_iff logs_fs logs_config "/data/Movie.mkv"
           empty_panel).
  repeat split.
Defined.

(** X3: [refresh_files] lists the directory of the last [update_files]
    with the filter off, whatever filter that update used: a refresh after
    a missing-only listing shows the plain listing. Before the first
    update it does nothing. *)
Theorem refresh_files_drops_filter (fs fs' : filesystem) (cfg : UAConfig)
  (directory : string) (show_missing_only : bool) (p p' : FilePanel) :
  refresh_files fs' cfg
    (fst (fst (update_files fs cfg directory show_missing_only p)))
  = update_files fs' cfg directory false p'
  /\ (current_directory p = None -> refresh_files fs' cfg p = (p, [], None)).
Proof.
  split.
  - unfold refresh_files.
    destruct (update_files_fields fs cfg directory show_missing_only p)
      as [_ Hd].
    rewrite Hd. reflexivity.
  - unfold refresh_files. now intros ->.
Qed.

(** The theorem at the panel that has not listed anything yet. *)
Lemma refresh_files_drops_filter_witness :
  refresh_files logs_fs logs_config empty_panel = (empty_panel, [], None).
Proof.
  apply (refresh_files_drops_filter logs_fs logs_fs logs_config "/data" true
           empty_panel empty_panel).
  reflexivity.
Defined.

(** X4: every [update_files] clears the selection of the list box, so
    right after it [get_selected_file] gives [None], and [rename_file],
    [launch_upload_assistant] and [make_torrent] only show their warning:
    no rename, no dialog, no process. *)
Theorem update_files_clears_selection (pf : platform) (fs : filesystem)
  (cfg : UAConfig) (directory : string) (show_missing_only : bool)
  (answer : option string) (p : FilePanel) :
  let p' := fst (fst (update_files fs cfg directory show_missing_only p)) in
  get_selected_file p' = Ok None
  /\ rename_file pf fs cfg answer p'
     = (fs, p', [ShowWarning "Warning" "Please select a file to rename"],
        None)
  /\ launch_upload_assistant pf cfg p'
     = ([ShowWarning "Warning" "Please select a file for upload assistant"],
        None)
  /\ make_torrent p'
     = ([ShowWarning "Warning" "Please select a file to create torrent for"],
        None).
Proof.
  cbv zeta.
  destruct (update_files_fields fs cfg directory show_missing_only p)
    as [Hs _].
  assert (H : get_selected_file
                (fst (fst (update_files fs cfg directory
                             show_missing_only p))) = Ok None)
    by (unfold get_selected_file; now rewrite Hs).
  unfold rename_file, launch_upload_assistant, make_torrent.
  rewrite H. now repeat split.
Qed.

(** ** Scanning the logs *)

Lemma scan_logs_events (fs : filesystem) (logs_dir : string)
  (log_files : list string) :
  snd (scan_logs fs logs_dir log_files)
  = map (fun f => Print ("Error reading log file " ++ f ++ ": "
                         ++ read_error fs (join logs_dir f)))
      (filter (fun f => negb (readable fs logs_dir f)) log_files).
Proof.
  induction log_files as [|f r IH]; [reflexivity|].
  cbn [scan_logs filter].
  destruct (scan_logs fs logs_dir r) as [found evs]. cbn [snd] in IH.
  assert (Hr : readable fs logs_dir f
               = match read_text fs (join logs_dir f) with
                 | Ok _ => true
                 | Raise _ => false
                 end) by reflexivity.
  assert (He : read_error fs (join logs_dir f)
               = match read_text fs (join logs_dir f) with
                 | Ok _ => EmptyString
                 | Raise e => exn_str e
                 end) by reflexivity.
  destruct (read_text fs (join logs_dir f)) as [content|e];
    rewrite Hr; cbn [snd negb map]; [exact IH|].
  now rewrite He, IH.
Qed.

(** X5: with the logs directory present and listable,
    [load_missing_torrents] prints one line for each [.log] file that
    cannot be read, in [os.listdir] order and naming the file, shows no
    message box, and lists what the readable [.log] files hold: a file that
    cannot be read does not stop the scan. *)
Theorem load_missing_torrents_skips_unreadable
  (fs : filesystem) (cfg : UAConfig) (p : FilePanel) (names : list string) :
  let logs_dir := config_get cfg "PATHS" "logs_dir" in
  exists_ fs logs_dir = true ->
  listdir fs logs_dir = Ok names ->
  let log_files := filter (fun f => endswith f ".log") names in
  let unreadable := filter (fun f => negb (readable fs logs_dir f)) log_files in
  let r := load_missing_torrents fs cfg p in
  snd r = map (fun f => Print ("Error reading log file " ++ f ++ ": "
                               ++ read_error fs (join logs_dir f)))
            unreadable
  /\ current_files (fst r)
     = app (current_files p)
         (flat_map
            (fun f => match read_text fs (join logs_dir f) with
                      | Ok content => missing_in content
                      | Raise _ => []
                      end)
            (filter (readable fs logs_dir) log_files)).
Proof.
  cbv zeta. intros Hex Hls. unfold load_missing_torrents.
  rewrite Hex, Hls. cbn [negb].
  set (logs_dir := config_get cfg "PATHS" "logs_dir").
  set (log_files := filter (fun f => endswith f ".log") names).
  pose proof (scan_logs_events fs logs_dir log_files) as Hev.
  assert (Hfound : fst (scan_logs fs logs_dir log_files)
                   = flat_map
                       (fun f => match read_text fs (join logs_dir f) with
                                 | Ok content => missing_in content
                                 | Raise _ => []
                                 end)
                       (filter (readable fs logs_dir) log_files)).
  { clear. induction log_files as [|f r IH]; [reflexivity|].
    cbn [scan_logs filter].
    destruct (scan_logs fs logs_dir r) as [found evs]. cbn [fst] in IH.
    assert (Hr : readable fs logs_dir f
                 = match read_text fs (join logs_dir f) with
                   | Ok _ => true
                   | Raise _ => false
                   end) by reflexivity.
    destruct (read_text fs (join logs_dir f)) as [content|e] eqn:E;
      rewrite Hr; cbn [fst flat_map]; [|exact IH].
    now rewrite E, IH. }
  destruct (scan_logs fs logs_dir log_files) as [missing_files evs].
  cbn [fst snd] in *. split; [exact Hev|].
  destruct (add_entries (fun m => "[MISSING] " ++ m) (fun m => m)
              missing_files p) as (_ & Hc & _).
  now rewrite Hc, map_id, Hfound.
Qed.

(** The theorem at [corrupt_logs_fs]: [bad.log] is reported, the files
    around it are listed. *)
Lemma load_missing_torrents_skips_unreadable_witness :
  snd (load_missing_torrents corrupt_logs_fs logs_config empty_panel)
  = [Print "Error reading log file bad.log: invalid start byte"]
  /\ current_files
       (fst (load_missing_torrents corrupt_logs_fs logs_config empty_panel))
     = ["torrent missing: one"; "Missing torrent two"].
Proof.
  destruct (load_missing_torrents_skips_unreadable
              corrupt_logs_fs logs_config empty_panel
              (names := ["a.log"; "bad.log"; "c.log"; "d.txt"])
              eq_refl eq_refl) as [H1 H2].
  rewrite H1, H2. split; reflexivity.
Defined.



(** ** What [strip] and [split] leave of a line *)














(** ** Lazy loading of the tree *)

Lemma insert_items_collapsed (fs : filesystem)
  (items : list (string * string)) :
  Forall (fun n =>
            exists p,
              node_values n = [p]
              /\ ((node_children n = [placeholder]
                   /\ has_subdirectories fs p = Ok true)
                  \/ (node_children n = []
                      /\ has_subdirectories fs p <> Ok true)))
    (fst (insert_items fs items)).
Proof.
  induction items as [|[item item_path] items IH]; simpl; [constructor|].
  destruct (has_subdirectories fs item_path) as [b|e] eqn:E.
  - destruct (insert_items fs items) as [ns ex]. simpl in *.
    constructor; [|exact IH]. exists item_path. split; [reflexivity|].
    rewrite E. destruct b; [now left|right]. split; [reflexivity|].
    discriminate.
  - simpl. constructor; [|constructor]. exists item_path.
    split; [reflexivity|]. right. rewrite E. split; [reflexivity|].
    discriminate.
Qed.

(** X8: every item that [populate_tree] inserts carries exactly one value
    (its path) and is collapsed: its only possible child is the
    [Loading...] item, present exactly when the probe of lines 149-153
    found a subdirectory. No grandchild is ever loaded; a refresh of the
    tree therefore leaves every root collapsed and nothing selected. *)
Theorem populate_tree_inserts_collapsed (fs : filesystem) (path : string) :
  Forall (fun n =>
            collapsed n = true
            /\ exists p,
                 node_values n = [p]
                 /\ (node_children n = [placeholder]
                     <-> has_subdirectories fs p = Ok true)
                 /\ (node_children n = []
                     <-> has_subdirectories fs p <> Ok true))
    (fst (populate_tree fs path))
  /\ (forall fp,
        Forall (fun n => collapsed n = true)
          (dir_tree (fst (refresh_directory_tree fs fp)))
        /\ tree_selection (fst (refresh_directory_tree fs fp)) = None).
Proof.
  assert (H : Forall (fun n =>
            collapsed n = true
            /\ exists p,
                 node_values n = [p]
                 /\ (node_children n = [placeholder]
                     <-> has_subdirectories fs p = Ok true)
                 /\ (node_children n = []
                     <-> has_subdirectories fs p <> Ok true))
    (fst (populate_tree fs path))).
  { unfold populate_tree. destruct (listdir fs path) as [names|e];
      [|constructor].
    eapply Forall_impl; [|apply insert_items_collapsed].
    intros n (p & Hv & [[Hc Hp]|[Hc Hp]]).
    - split; [unfold collapsed; now rewrite Hc|].
      exists p. split; [exact Hv|]. rewrite Hc. split.
      + split; auto.
      + split; [discriminate|]. intro Hn. now elim Hn.
    - split; [unfold collapsed; now rewrite Hc|].
      exists p. split; [exact Hv|]. rewrite Hc. split.
      + split; [discriminate|]. intro Hn. now elim Hp.
      + split; auto. }
  split; [exact H|]. intro fp. unfold refresh_directory_tree.
  destruct (exists_ fs (current_path_var fp)); [|now split].
  clear H.
  assert (H : Forall (fun n => collapsed n = true)
                (fst (populate_tree fs (current_path_var fp)))).
  { unfold populate_tree.
    destruct (listdir fs (current_path_var fp)) as [names|e]; [|constructor].
    eapply Forall_impl; [|apply insert_items_collapsed].
    intros n (p & _ & [[Hc _]|[Hc _]]); unfold collapsed; now rewrite Hc. }
  destruct (populate_tree fs (current_path_var fp)) as [ns ex].
  now split.
Qed.

(** ** Expanding an item *)

Lemma nth_error_replace_nth_other (A : Type) (i j : nat) (x : A)
  (l : list A) :
  i <> j -> nth_error (replace_nth i x l) j = nth_error l j.
Proof.
  revert i j. induction l as [|y l IH]; intros [|i] [|j] H; simpl;
    try reflexivity; [now elim H|]. apply IH. congruence.
Qed.

Lemma path_prefix_nil_r (q : list nat) : path_prefix q [] = true -> q = [].
Proof. destruct q; [reflexivity|discriminate]. Qed.

(** Replacing the item at [p] leaves the items beside it as they are. *)
Lemma lookup_replace_at_other (p : list nat) (forest : list node)
  (n' : node) (q : list nat) :
  path_prefix p q = false -> path_prefix q p = false ->
  lookup (replace_at forest p n') q = lookup forest q.
Proof.
  revert forest q. induction p as [|i p IH]; intros forest q;
    [discriminate|].
  destruct q as [|j q]; [discriminate|]. simpl path_prefix.
  intros Hpq Hqp. simpl replace_at.
  destruct (nth_error forest i) as [[t v ch]|] eqn:E; [|reflexivity].
  destruct (Nat.eqb_spec i j) as [<-|Hne].
  - rewrite Nat.eqb_refl in Hqp. simpl in Hpq, Hqp.
    destruct p as [|i' p]; [discriminate|].
    destruct q as [|j' q]; [discriminate|].
    simpl lookup. rewrite (nth_error_replace_nth _ _ _ E), E.
    exact (IH ch (j' :: q) Hpq Hqp).
  - destruct p as [|i' p]; simpl lookup;
      now rewrite nth_error_replace_nth_other.
Qed.

(** ... and the items above it keep their text and values. *)
Lemma lookup_replace_at_above (p : list nat) (forest : list node)
  (n' : node) (q : list nat) :
  path_prefix q p = true -> q <> p ->
  option_map item_entry (lookup (replace_at forest p n') q)
  = option_map item_entry (lookup forest q).
Proof.
  revert forest q. induction p as [|i p IH]; intros forest q Hqp Hne.
  - apply path_prefix_nil_r in Hqp. congruence.
  - destruct q as [|j q]; [reflexivity|]. simpl in Hqp.
    apply andb_true_iff in Hqp. destruct Hqp as [Hij Hqp].
    apply Nat.eqb_eq in Hij. subst j. simpl replace_at.
    destruct (nth_error forest i) as [[t v ch]|] eqn:E; [|reflexivity].
    destruct p as [|i' p].
    + apply path_prefix_nil_r in Hqp. congruence.
    + simpl lookup. rewrite (nth_error_replace_nth _ _ _ E), E.
      destruct q as [|j' q]; [reflexivity|].
      apply (IH ch (j' :: q) Hqp). congruence.
Qed.

(** X9: selecting an item whose only child is the [Loading...] item, when
    listing its path raises nothing, replaces that child by the items
    that [populate_tree] inserts for the path; the item keeps its text
    and values, the items beside it are untouched and the items above it
    keep their text and values. *)
Theorem on_dir_select_expands (fs : filesystem) (app : App)
  (item : list nat) (text path : string) (values : list string)
  (child : node) :
  tree_selection (filter_panel app) = Some item ->
  lookup (dir_tree (filter_panel app)) item
  = Some (Node text (path :: values) [child]) ->
  node_text child = "Loading..." ->
  snd (on_filter_change fs app path) = None ->
  let app1 := fst (fst (on_dir_select fs app)) in
  lookup (dir_tree (filter_panel app1)) item
  = Some (Node text (path :: values) (fst (populate_tree fs path)))
  /\ (forall q,
        path_prefix item q = false -> path_prefix q item = false ->
        lookup (dir_tree (filter_panel app1)) q
        = lookup (dir_tree (filter_panel app)) q)
  /\ (forall q,
        path_prefix q item = true -> q <> item ->
        option_map item_entry (lookup (dir_tree (filter_panel app1)) q)
        = option_map item_entry (lookup (dir_tree (filter_panel app)) q))
  /\ snd (on_dir_select fs app) = snd (populate_tree fs path).
Proof.
  cbv zeta. intros Hsel Hlook Htext Hnone. unfold on_dir_select.
  rewrite Hsel, Hlook.
  destruct (on_filter_change fs app path) as [[a1 evs] ex] eqn:Ef.
  destruct (on_filter_change_again _ _ _ Ef) as [_ Hfp].
  simpl in Hnone. subst ex. cbn [only_loading_child]. rewrite Htext.
  rewrite String.eqb_refl.
  destruct (populate_tree fs path) as [nodes ex']. cbn [fst snd].
  cbn [set_dir_tree filter_panel dir_tree]. rewrite Hfp.
  split; [now apply lookup_replace_at with (n := Node text (path :: values)
                                                     [child])|].
  split; [intros q H1 H2; now apply lookup_replace_at_other|].
  split; [intros q H1 H2; now apply lookup_replace_at_above|reflexivity].
Qed.

(** The theorem at [torrents_app]: the item of [a] gets the item of [x],
    the item of [B] beside it is untouched. *)
Lemma on_dir_select_expands_witness :
  lookup (dir_tree (filter_panel
                      (fst (fst (on_dir_select torrents_fs torrents_app)))))
    [2%nat]
  = Some (Node "a" ["/data/torrents/a"]
            (fst (populate_tree torrents_fs "/data/torrents/a")))
  /\ lookup (dir_tree (filter_panel
                         (fst (fst (on_dir_select torrents_fs
                                      torrents_app))))) [0%nat]
     = Some (Node "B" ["/data/torrents/B"] []).
Proof.
  destruct (on_dir_select_expands torrents_fs torrents_app
              (item := [2%nat]) (text := "a") (path := "/data/torrents/a")
              (values := []) (child := placeholder)
              eq_refl eq_refl eq_refl eq_refl) as (H1 & H2 & _).
  split; [exact H1|]. rewrite (H2 [0%nat] eq_refl eq_refl). reflexivity.
Defined.

(** ** Launching the command *)

Lemma try_terminals_cons (pf : platform) (t : string) (rest : list string)
  (cmd : list string) :
  try_terminals pf (t :: rest) cmd
  = match popen pf (terminal_argv t cmd) with
    | Ok _ => [Popen (terminal_argv t cmd)]
    | Raise e =>
        if is_FileNotFoundError e
        then Popen (terminal_argv t cmd) :: try_terminals pf rest cmd
        else [Popen (terminal_argv t cmd); launch_failed e]
    end.
Proof. reflexivity. Qed.

Lemma try_terminals_all_absent (pf : platform) (ts : list string)
  (cmd : list string) :
  forallb (terminal_absent pf cmd) ts = true ->
  try_terminals pf ts cmd
  = app (map (fun t => Popen (terminal_argv t cmd)) ts)
      (Run cmd :: failure_box (run pf cmd)).
Proof.
  induction ts as [|t ts IH]; intro H.
  - simpl. now destruct (run pf cmd).
  - simpl in H. apply andb_true_iff in H. destruct H as [Ht H].
    rewrite try_terminals_cons. unfold terminal_absent in Ht.
    destruct (popen pf (terminal_argv t cmd)) as [|e]; [discriminate|].
    rewrite Ht, (IH H). reflexivity.
Qed.

Lemma try_terminals_stops (pf : platform) (before : list string)
  (t : string) (rest : list string) (cmd : list string) :
  forallb (terminal_absent pf cmd) before = true ->
  terminal_absent pf cmd t = false ->
  try_terminals pf (app before (t :: rest)) cmd
  = app (map (fun t' => Popen (terminal_argv t' cmd)) (app before [t]))
      (failure_box (popen pf (terminal_argv t cmd))).
Proof.
  intros Hb Ht. induction before as [|b before IH].
  - simpl app. rewrite try_terminals_cons. unfold terminal_absent in Ht.
    destruct (popen pf (terminal_argv t cmd)) as [|e]; [reflexivity|].
    now rewrite Ht.
  - simpl in Hb. apply andb_true_iff in Hb. destruct Hb as [Hb0 Hb].
    simpl app. rewrite try_terminals_cons. unfold terminal_absent in Hb0.
    destruct (popen pf (terminal_argv b cmd)) as [|e]; [discriminate|].
    rewrite Hb0, (IH Hb). reflexivity.
Qed.

(** X10: on a host that is not Windows, when each of the four terminal
    emulators fails to start with [FileNotFoundError],
    [execute_upload_assistant] has tried them in the order gnome-terminal,
    xterm, konsole, terminator and then runs the command itself, with the
    argument list unchanged; an error box follows only if that run
    raises. *)
Theorem execute_falls_back_to_run (pf : platform) (cfg : UAConfig)
  (file_path : string) (args : dict value) :
  let cmd :=
    build_cmd (config_get cfg "PATHS" "upload_assistant_path") file_path
      args in
  os_name_nt pf = false ->
  forallb (terminal_absent pf cmd) terminals = true ->
  execute_upload_assistant pf cfg file_path args
  = app (map (fun t => Popen (terminal_argv t cmd))
           ["gnome-terminal"; "xterm"; "konsole"; "terminator"])
      (Run cmd :: failure_box (run pf cmd)).
Proof.
  cbv zeta. intros Hnt Habs. unfold execute_upload_assistant. rewrite Hnt.
  now apply try_terminals_all_absent.
Qed.

(** The theorem at [bare_host], which has no terminal emulator. *)
Lemma execute_falls_back_to_run_witness :
  last (execute_upload_assistant bare_host logs_config "/data/Movie.mkv"
          bag_tmdb_first) (Print "")
  = Run ["upload-assistant"; "/data/Movie.mkv"; "--tmdb"; "123";
         "--freeleech"].
Proof.
  rewrite (execute_falls_back_to_run bare_host logs_config "/data/Movie.mkv"
             bag_tmdb_first eq_refl eq_refl).
  reflexivity.
Defined.

(** X11: the search ends at the first terminal emulator whose start does
    not fail with [FileNotFoundError]: the emulators before it have been
    tried, none after it is, and the command is not run in the current
    session. If that start succeeded nothing else happens; if it raised
    another exception, one error box is shown. *)
Theorem execute_stops_at_first_terminal (pf : platform) (cfg : UAConfig)
  (file_path : string) (args : dict value)
  (before : list string) (t : string) (rest : list string) :
  let cmd :=
    build_cmd (config_get cfg "PATHS" "upload_assistant_path") file_path
      args in
  os_name_nt pf = false ->
  terminals = app before (t :: rest) ->
  forallb (terminal_absent pf cmd) before = true ->
  terminal_absent pf cmd t = false ->
  execute_upload_assistant pf cfg file_path args
  = app (map (fun t' => Popen (terminal_argv t' cmd)) (app before [t]))
      (failure_box (popen pf (terminal_argv t cmd))).
Proof.
  cbv zeta. intros Hnt Hts Hb Ht. unfold execute_upload_assistant.
  rewrite Hnt, Hts. now apply try_terminals_stops.
Qed.

(** The theorem at [konsole_host]: two failed attempts, then [konsole]. *)
Lemma execute_stops_at_first_terminal_witness :
  map (fun ev => match ev with Popen (t :: _) => t | _ => "" end)
    (execute_upload_assistant konsole_host logs_config "/data/Movie.mkv"
       bag_tmdb_first)
  = ["gnome-terminal"; "xterm"; "konsole"].
Proof.
  rewrite (@execute_stops_at_first_terminal konsole_host logs_config
             "/data/Movie.mkv" bag_tmdb_first
             ["gnome-terminal"; "xterm"] "konsole" ["terminator"]
             eq_refl eq_refl eq_refl eq_refl).
  reflexivity.
Defined.

Lemma try_terminals_shape (pf : platform) (ts : list string)
  (cmd : list string) :
  exists attempts tail,
    try_terminals pf ts cmd = app attempts tail
    /\ Forall (fun ev => is_process ev = true) attempts
    /\ (List.length attempts <= S (List.length ts))%nat
    /\ (tail = [] \/ exists e, tail = [launch_failed e]).
Proof.
  induction ts as [|t ts (attempts & tail & Heq & Hp & Hlen & Htail)].
  - simpl. destruct (run pf cmd) as [|e].
    + exists [Run cmd], []. repeat split; auto.
    + exists [Run cmd], [launch_failed e]. repeat split; eauto.
  - rewrite try_terminals_cons.
    destruct (popen pf (terminal_argv t cmd)) as [|e].
    + exists [Popen (terminal_argv t cmd)], []. repeat split; auto.
      simpl. lia.
    + destruct (is_FileNotFoundError e).
      * exists (Popen (terminal_argv t cmd) :: attempts), tail.
        rewrite Heq. repeat split; auto. simpl. lia.
      * exists [Popen (terminal_argv t cmd)], [launch_failed e].
        repeat split; eauto. simpl. lia.
Qed.

(** X12: on either kind of host [execute_upload_assistant] makes at most
    five attempts to start a process, shows at most one error box, and
    shows it, if at all, after the last attempt; it never renames and
    never shows another kind of message. *)
Theorem execute_reports_once (pf : platform) (cfg : UAConfig)
  (file_path : string) (args : dict value) :
  exists attempts tail,
    execute_upload_assistant pf cfg file_path args = app attempts tail
    /\ Forall (fun ev => is_process ev = true) attempts
    /\ (1 <= List.length attempts <= 5)%nat
    /\ (tail = [] \/ exists e, tail = [launch_failed e]).
Proof.
  unfold execute_upload_assistant. destruct (os_name_nt pf).
  - destruct (popen pf _) as [|e].
    + eexists [_], []. repeat split; auto.
    + eexists [_], [launch_failed e]. repeat split; eauto.
  - destruct (try_terminals_shape pf terminals
                (build_cmd (config_get cfg "PATHS" "upload_assistant_path")
                   file_path args))
      as (attempts & tail & Heq & Hp & Hlen & Htail).
    exists attempts, tail. repeat split; auto.
    destruct attempts as [|a attempts]; simpl; [|lia].
    exfalso. unfold terminals in Heq.
    rewrite try_terminals_cons in Heq. cbn [app] in Heq.
    destruct Htail as [->|(e & ->)];
      destruct (popen pf _) as [|e']; try discriminate;
      destruct (is_FileNotFoundError e'); discriminate.
Qed.

Lemma concat_cons (sep x : string) (l : list string) :
  l <> [] -> String.concat sep (x :: l) = x ++ sep ++ String.concat sep l.
Proof. destruct l; [intro H; now elim H|reflexivity]. Qed.

(** [' '.join] cannot tell an argument holding a blank from two
    arguments. *)
Lemma join_with_blank (l1 l2 : list string) (a b : string) :
  join_with " " (app l1 ((a ++ " " ++ b) :: l2))
  = join_with " " (app l1 (a :: b :: l2)).
Proof.
  unfold join_with. induction l1 as [|x l1 IH].
  - destruct l2 as [|y l2]; simpl; [reflexivity|].
    now rewrite !string_app_assoc.
  - cbn [app]. rewrite !concat_cons, IH; [reflexivity| |];
      now destruct l1.
Qed.

(** X13: the command line handed to a terminal emulator is the plain
    [' '.join] of the arguments, without quoting: for a target path that
    holds a blank, the first terminal is started on the same shell line as
    if the two halves of the path were two arguments. *)
Theorem terminal_command_not_quoted (pf : platform) (cfg : UAConfig)
  (a b : string) (args : dict value) :
  os_name_nt pf = false ->
  hd_error (execute_upload_assistant pf cfg (a ++ " " ++ b) args)
  = Some (Popen (terminal_argv "gnome-terminal"
                   (config_get cfg "PATHS" "upload_assistant_path"
                    :: a :: b :: flat_map spec_flags args))).
Proof.
  intro Hnt. unfold execute_upload_assistant, build_cmd. rewrite Hnt.
  rewrite fold_add_arg. unfold terminals. rewrite try_terminals_cons.
  set (ua := config_get cfg "PATHS" "upload_assistant_path").
  assert (Hargv : terminal_argv "gnome-terminal"
                    (app [ua; a ++ " " ++ b] (flat_map spec_flags args))
                  = terminal_argv "gnome-terminal"
                      (ua :: a :: b :: flat_map spec_flags args)).
  { assert (Hj : join_with " "
                   (app [ua; a ++ " " ++ b] (flat_map spec_flags args))
                 = join_with " " (ua :: a :: b :: flat_map spec_flags args))
      by exact (join_with_blank [ua] (flat_map spec_flags args) a b).
    unfold terminal_argv. now rewrite Hj. }
  rewrite Hargv.
  destruct (popen pf _) as [|e]; [reflexivity|].
  now destruct (is_FileNotFoundError e).
Qed.

(** The theorem at [bare_host] and the path [/data/My Movie.mkv]. *)
Lemma terminal_command_not_quoted_witness :
  hd_error (execute_upload_assistant bare_host logs_config
              "/data/My Movie.mkv" [])
  = Some (Popen ["gnome-terminal"; "--"; "bash"; "-c";
                 "upload-assistant /data/My Movie.mkv" ++ pause_suffix]).
Proof.
  apply (terminal_command_not_quoted bare_host logs_config "/data/My"
           "Movie.mkv" [] eq_refl).
Defined.

(** ** Paths *)

Lemma has_slash_app (a b : string) :
  has_slash (a ++ b) = has_slash a || has_slash b.
Proof.
  induction a as [|c a IH]; simpl; [reflexivity|].
  now rewrite IH, orb_assoc.
Qed.

Lemma ends_with_slash_last (s : string) :
  ends_with_slash s = last_is_slash s.
Proof.
  unfold ends_with_slash, endswith. induction s as [|c s IH];
    [reflexivity|].
  destruct s as [|d s].
  - simpl. unfold slash.
    now destruct (Ascii.eqb_spec c "/"%char) as [->|Hne].
  - change (last_is_slash (String c (String d s)))
      with (last_is_slash (String d s)).
    rewrite <- IH. simpl String.length. simpl Nat.leb. simpl Nat.sub.
    rewrite Nat.sub_0_r. reflexivity.
Qed.

Lemma last_is_slash_split (s : string) :
  last_is_slash s = true -> exists a, s = a ++ "/".
Proof.
  induction s as [|c s IH]; [discriminate|].
  destruct s as [|d s].
  - simpl. intro H. apply Ascii.eqb_eq in H. subst c.
    now exists EmptyString.
  - intro H. destruct (IH H) as (a & Ha). exists (String c a).
    simpl. now rewrite <- Ha.
Qed.

Lemma last_is_slash_app_slash (a : string) : last_is_slash (a ++ "/") = true.
Proof.
  induction a as [|c a IH]; [reflexivity|].
  simpl append. destruct (a ++ "/") eqn:E; [|exact IH].
  destruct a; discriminate.
Qed.

Lemma basename_no_slash (n : string) : has_slash n = false -> basename n = n.
Proof.
  destruct n as [|c n]; [reflexivity|]. simpl. intro H.
  apply orb_false_iff in H. destruct H as [Hc Hn]. now rewrite Hn, Hc.
Qed.

Lemma basename_app_slash (a n : string) :
  has_slash n = false -> basename (a ++ "/" ++ n) = n.
Proof.
  intro Hn. induction a as [|c a IH]; simpl.
  - now rewrite Hn.
  - rewrite has_slash_app. simpl.
    now rewrite orb_true_r.
Qed.

Lemma head_no_slash (n : string) :
  has_slash n = false -> head_upto_last_slash n = EmptyString.
Proof.
  destruct n as [|c n]; [reflexivity|]. simpl. intro H.
  apply orb_false_iff in H. destruct H as [Hc Hn]. now rewrite Hn, Hc.
Qed.

Lemma head_app_slash (a n : string) :
  has_slash n = false -> head_upto_last_slash (a ++ "/" ++ n) = a ++ "/".
Proof.
  intro Hn. induction a as [|c a IH]; simpl in *.
  - now rewrite Hn.
  - rewrite has_slash_app. simpl. rewrite orb_true_r. now rewrite IH.
Qed.

Lemma join_no_slash (d n : string) :
  has_slash n = false ->
  join d n = if negb (truthy d) || last_is_slash d then d ++ n
             else d ++ "/" ++ n.
Proof.
  intro Hn. unfold join, startswith. rewrite ends_with_slash_last.
  destruct (prefix "/" n) eqn:E; [|reflexivity].
  apply prefix_iff in E. destruct E as (post & ->). discriminate.
Qed.

(** The base name of a directory joined with a name is the name. *)
Lemma basename_join (d n : string) :
  has_slash n = false -> basename (join d n) = n.
Proof.
  intro Hn. rewrite (@join_no_slash d n Hn).
  destruct d as [|c d]; [now apply basename_no_slash|].
  cbn [truthy negb orb].
  destruct (last_is_slash (String c d)) eqn:E.
  - destruct (last_is_slash_split _ E) as (a & ->).
    rewrite string_app_assoc. now apply basename_app_slash.
  - now apply basename_app_slash.
Qed.

Lemma all_slashes_app (a b : string) :
  all_slashes (a ++ b) = all_slashes a && all_slashes b.
Proof.
  induction a as [|c a IH]; simpl; [reflexivity|].
  now rewrite IH, andb_assoc.
Qed.

Lemma all_slashes_last (s : string) :
  all_slashes s = true -> truthy s = true -> last_is_slash s = true.
Proof.
  induction s as [|c s IH]; [discriminate|]. simpl all_slashes.
  intro H. apply andb_true_iff in H. destruct H as [Hc Hs]. intros _.
  destruct s as [|d s]; [exact Hc|]. now apply IH.
Qed.

Lemma rstrip_slash_shape (s : string) :
  last_is_slash (rstrip_slash s) = false
  /\ (rstrip_slash s = EmptyString -> all_slashes s = true).
Proof.
  induction s as [|c s [IH1 IH2]]; [now split|]. simpl.
  destruct (rstrip_slash s) as [|d r] eqn:E.
  - destruct (Ascii.eqb c slash) eqn:Ec.
    + split; [reflexivity|]. intros _. now rewrite IH2.
    + split; [simpl; exact Ec|discriminate].
  - split; [exact IH1|discriminate].
Qed.

Lemma rstrip_slash_fixed (s : string) :
  last_is_slash s = false -> rstrip_slash s = s.
Proof.
  induction s as [|c s IH]; [reflexivity|].
  destruct s as [|d s].
  - simpl. intros ->. reflexivity.
  - intro H. change (last_is_slash (String d s) = false) in H.
    change (rstrip_slash (String c (String d s)))
      with (match rstrip_slash (String d s) with
            | EmptyString =>
                if Ascii.eqb c slash then EmptyString
                else String c EmptyString
            | r' => String c r'
            end).
    now rewrite (IH H).
Qed.

Lemma rstrip_slash_app_slash (a : string) :
  rstrip_slash (a ++ "/") = rstrip_slash a.
Proof.
  induction a as [|c a IH]; [reflexivity|].
  simpl append. simpl rstrip_slash. now rewrite IH.
Qed.

(** What [os.path.dirname] returns: nothing, slashes only, or a path that
    does not end in a slash. *)
Lemma dirname_shape (p : string) :
  dirname p = EmptyString
  \/ (all_slashes (dirname p) = true /\ truthy (dirname p) = true)
  \/ (last_is_slash (dirname p) = false /\ truthy (dirname p) = true
      /\ all_slashes (dirname p) = false).
Proof.
  unfold dirname. set (head := head_upto_last_slash p).
  destruct head as [|c h] eqn:E; [now left|]. cbn [truthy andb].
  destruct (all_slashes (String c h)) eqn:Ea; cbn [negb].
  - right. left. now split.
  - right. right. destruct (rstrip_slash_shape (String c h)) as [H1 H2].
    split; [exact H1|].
    destruct (rstrip_slash (String c h)) as [|c' h'] eqn:Er.
    + rewrite H2 in Ea; [discriminate|reflexivity].
    + split; [reflexivity|].
      destruct (all_slashes (String c' h')) eqn:Ea'; [|reflexivity].
      exfalso. assert (Hl : last_is_slash (String c' h') = true)
        by now apply all_slashes_last.
      congruence.
Qed.

(** Joining the directory of a path with a name gives a path in that
    directory. *)
Lemma dirname_join_dirname (p n : string) :
  has_slash n = false -> dirname (join (dirname p) n) = dirname p.
Proof.
  intro Hn. rewrite (@join_no_slash _ n Hn).
  destruct (dirname_shape p) as [E|[[Ha Ht]|(Hl & Ht & Ha)]].
  - rewrite E. cbn [truthy negb orb append]. unfold dirname.
    now rewrite (head_no_slash _ Hn).
  - rewrite Ht, (all_slashes_last _ Ha Ht). cbn [negb orb].
    destruct (last_is_slash_split _ (all_slashes_last _ Ha Ht)) as (a & Hd).
    unfold dirname at 1. rewrite Hd, string_app_assoc.
    rewrite (@head_app_slash a n Hn), <- Hd, Ht, Ha. reflexivity.
  - rewrite Ht, Hl. cbn [negb orb]. unfold dirname at 1.
    rewrite (@head_app_slash _ n Hn).
    assert (Htr : truthy (dirname p ++ "/") = true)
      by (destruct (dirname p); reflexivity).
    rewrite Htr, all_slashes_app, Ha. cbn [andb negb].
    rewrite rstrip_slash_app_slash. now apply rstrip_slash_fixed.
Qed.

(** ** Renaming *)

Lemma update_files_plain_events (fs : filesystem) (cfg : UAConfig)
  (directory : string) (p : FilePanel) :
  filter is_rename (snd (fst (update_files fs cfg directory false p))) = [].
Proof.
  unfold update_files. destruct (negb (exists_ fs directory)); [reflexivity|].
  destruct (listdir fs directory) as [names|e]; [reflexivity|].
  now destruct (is_PermissionError e).
Qed.

Lemma refresh_files_no_rename (fs : filesystem) (cfg : UAConfig)
  (p : FilePanel) :
  filter is_rename (snd (fst (refresh_files fs cfg p))) = [].
Proof.
  unfold refresh_files. destruct (current_directory p); [|reflexivity].
  apply update_files_plain_events.
Qed.

Lemma rename_file_renames (pf : platform) (fs : filesystem) (cfg : UAConfig)
  (p : FilePanel) (f new_name : string) :
  get_selected_file p = Ok (Some f) -> truthy f = true ->
  truthy new_name = true -> new_name <> basename f ->
  filter is_rename
    (rename_events (rename_file pf fs cfg (Some new_name) p))
  = [OsRename f (join (dirname f) new_name)].
Proof.
  intros Hsel Hf Hnew Hne. unfold rename_events, rename_file.
  rewrite Hsel. cbn [no_selection]. rewrite Hf, Hnew.
  apply String.eqb_neq in Hne. rewrite Hne. cbn [negb andb].
  destruct (os_rename pf fs f (join (dirname f) new_name)) as [fs'|e];
    [|reflexivity].
  pose proof (refresh_files_no_rename fs' cfg p) as Hno.
  destruct (refresh_files fs' cfg p) as [[p' evs] ex]. cbn [fst snd] in *.
  cbn [filter is_rename app]. rewrite filter_app, Hno.
  now destruct ex.
Qed.

(** X14: [rename_file] calls [os.rename] at most once, and exactly when an
    entry is selected and the operator gives a non-empty name different
    from the entry's base name; otherwise (no selection, cancel, empty or
    unchanged name) the file system and the panel are left as they were.
    It raises only if resolving the selection raises. *)
Theorem rename_file_renames_iff (pf : platform) (fs : filesystem)
  (cfg : UAConfig) (answer : option string) (p : FilePanel) :
  let r := rename_file pf fs cfg answer p in
  (List.length (filter is_rename (rename_events r)) <= 1)%nat
  /\ (filter is_rename (rename_events r) <> [] <->
      exists f new_name,
        get_selected_file p = Ok (Some f) /\ truthy f = true
        /\ answer = Some new_name /\ truthy new_name = true
        /\ new_name <> basename f)
  /\ (filter is_rename (rename_events r) = [] ->
      rename_fs r = fs /\ rename_panel r = p)
  /\ (forall e, snd r = Some e <-> get_selected_file p = Raise e).
Proof.
  cbv zeta.
  assert (Hiff : forall e, snd (rename_file pf fs cfg answer p) = Some e
                           <-> get_selected_file p = Raise e).
  { intro e. unfold rename_file.
    destruct (get_selected_file p) as [[f|]|e0].
    - destruct (no_selection (Some f)); [split; discriminate|].
      destruct answer as [new_name|]; [|split; discriminate].
      destruct (truthy new_name && negb (new_name =? basename f));
        [|split; discriminate].
      destruct (os_rename pf fs f _) as [fs'|e1]; [|split; discriminate].
      destruct (refresh_files fs' cfg p) as [[p' evs] ex].
      split; discriminate.
    - split; discriminate.
    - simpl. split; congruence. }
  assert (Hrest :
    (List.length (filter is_rename
       (rename_events (rename_file pf fs cfg answer p))) <= 1)%nat
    /\ (filter is_rename (rename_events (rename_file pf fs cfg answer p))
        <> [] <->
        exists f new_name,
          get_selected_file p = Ok (Some f) /\ truthy f = true
          /\ answer = Some new_name /\ truthy new_name = true
          /\ new_name <> basename f)
    /\ (filter is_rename (rename_events (rename_file pf fs cfg answer p))
        = [] ->
        rename_fs (rename_file pf fs cfg answer p) = fs
        /\ rename_panel (rename_file pf fs cfg answer p) = p)).
  { clear Hiff.
    destruct (get_selected_file p) as [[f|]|e0] eqn:Hsel.
    2:{ unfold rename_events, rename_fs, rename_panel, rename_file.
        rewrite Hsel. cbn. split; [lia|]. split; [|intros _; now split].
        split; [intro H; now elim H|].
        intros (f & n & H & _). discriminate. }
    2:{ unfold rename_events, rename_fs, rename_panel, rename_file.
        rewrite Hsel. cbn. split; [lia|]. split; [|intros _; now split].
        split; [intro H; now elim H|].
        intros (f & n & H & _). discriminate. }
    destruct (truthy f) eqn:Hf.
    2:{ unfold rename_events, rename_fs, rename_panel, rename_file.
        rewrite Hsel. cbn [no_selection]. rewrite Hf. cbn.
        split; [lia|]. split; [|intros _; now split].
        split; [intro H; now elim H|].
        intros (f' & n & [= <-] & H & _). congruence. }
    destruct answer as [new_name|].
    2:{ unfold rename_events, rename_fs, rename_panel, rename_file.
        rewrite Hsel. cbn [no_selection]. rewrite Hf. cbn.
        split; [lia|]. split; [|intros _; now split].
        split; [intro H; now elim H|].
        intros (f' & n & _ & _ & H & _). discriminate. }
    destruct (truthy new_name) eqn:Hnew.
    2:{ unfold rename_events, rename_fs, rename_panel, rename_file.
        rewrite Hsel. cbn [no_selection]. rewrite Hf, Hnew. cbn.
        split; [lia|]. split; [|intros _; now split].
        split; [intro H; now elim H|].
        intros (f' & n & _ & _ & [= <-] & H & _). congruence. }
    destruct (String.eqb_spec new_name (basename f)) as [Heq|Hne].
    - unfold rename_events, rename_fs, rename_panel, rename_file.
      rewrite Hsel. cbn [no_selection]. rewrite Hf, Hnew.
      rewrite (proj2 (String.eqb_eq _ _) Heq). cbn.
      split; [lia|]. split; [|intros _; now split].
      split; [intro H; now elim H|].
      intros (f' & n & [= <-] & _ & [= <-] & _ & H). contradiction.
    - rewrite (@rename_file_renames pf fs cfg p f new_name Hsel Hf Hnew Hne).
      split; [simpl; lia|]. split; [|discriminate].
      split; [|discriminate]. intros _. now exists f, new_name. }
  destruct Hrest as (HA & HB & HC).
  split; [exact HA|]. split; [exact HB|]. split; [exact HC|exact Hiff].
Qed.

(** The theorem at [missing_panel] when the operator cancels. *)
Lemma rename_file_renames_iff_witness :
  rename_fs (rename_file bare_host logs_fs logs_config None missing_panel)
  = logs_fs
  /\ rename_panel (rename_file bare_host logs_fs logs_config None
                     missing_panel) = missing_panel.
Proof.
  apply (rename_file_renames_iff bare_host logs_fs logs_config None
           missing_panel).
  reflexivity.
Defined.

(** X15: when a name without a slash is given, the path handed to
    [os.rename] as destination has that name as base name and lies in the
    directory of the selected entry: a rename does not move the entry. *)
Theorem rename_stays_in_directory (pf : platform) (fs : filesystem)
  (cfg : UAConfig) (p : FilePanel) (f new_name : string) :
  get_selected_file p = Ok (Some f) -> truthy f = true ->
  truthy new_name = true -> new_name <> basename f ->
  has_slash new_name = false ->
  exists dst,
    filter is_rename
      (rename_events (rename_file pf fs cfg (Some new_name) p))
    = [OsRename f dst]
    /\ basename dst = new_name /\ dirname dst = dirname f.
Proof.
  intros Hsel Hf Hnew Hne Hslash.
  exists (join (dirname f) new_name).
  split; [now apply rename_file_renames|].
  split; [now apply basename_join|now apply dirname_join_dirname].
Qed.

(** The theorem at the second line of [two_files_panel]. *)
Lemma rename_stays_in_directory_witness :
  exists dst,
    filter is_rename
      (rename_events
         (rename_file bare_host logs_fs logs_config (Some "series")
            (select_index two_files_panel 1)))
    = [OsRename "/data/show" dst]
    /\ basename dst = "series" /\ dirname dst = "/data".
Proof.
  apply (@rename_stays_in_directory bare_host logs_fs logs_config
           (select_index two_files_panel 1) "/data/show" "series");
    try reflexivity. discriminate.
Defined.

(** X16: after a rename that [os.rename] carried out, the panel shows
    what [update_files] gives for the panel's directory in the new file
    system with the filter off, whatever listing was shown before, and
    nothing is raised; the last event is the success message when that
    listing raised nothing and an error box when it did. *)
Theorem rename_success_refreshes (pf : platform) (fs fs' : filesystem)
  (cfg : UAConfig) (p : FilePanel) (f new_name directory : string) :
  get_selected_file p = Ok (Some f) -> truthy f = true ->
  truthy new_name = true -> new_name <> basename f ->
  os_rename pf fs f (join (dirname f) new_name) = Ok fs' ->
  current_directory p = Some directory ->
  let r := rename_file pf fs cfg (Some new_name) p in
  rename_fs r = fs'
  /\ rename_panel r = fst (fst (update_files fs' cfg directory false p))
  /\ snd r = None
  /\ last (rename_events r) (Print EmptyString)
     = match snd (update_files fs' cfg directory false p) with
       | None =>
           ShowInfo "Success"
             ("Renamed '" ++ basename f ++ "' to '" ++ new_name ++ "'")
       | Some e => ShowError "Error" ("Failed to rename file: " ++ exn_str e)
       end.
Proof.
  cbv zeta. intros Hsel Hf Hnew Hne Hren Hdir.
  unfold rename_fs, rename_panel, rename_events, rename_file.
  rewrite Hsel. cbn [no_selection]. rewrite Hf, Hnew.
  apply String.eqb_neq in Hne. rewrite Hne. cbn [negb andb]. rewrite Hren.
  unfold refresh_files. rewrite Hdir.
  destruct (update_files fs' cfg directory false p) as [[p' evs] ex].
  cbn [fst snd]. split; [reflexivity|]. split; [reflexivity|].
  split; [reflexivity|].
  apply last_last.
Qed.

(** The theorem at [lenient_host], second line of the plain listing of
    [/data]. *)
Lemma rename_success_refreshes_witness :
  rename_panel
    (rename_file lenient_host logs_fs logs_config (Some "series")
       (select_index
          (fst (fst (update_files logs_fs logs_config "/data" false
                       empty_panel))) 1))
  = fst (fst (update_files logs_fs logs_config "/data" false empty_panel)).
Proof.
  apply (@rename_success_refreshes lenient_host logs_fs logs_fs logs_config
           (select_index
              (fst (fst (update_files logs_fs logs_config "/data" false
                           empty_panel))) 1)
           "/data/show" "series" "/data"); try reflexivity. discriminate.
Defined.

(** ** Labels and stored paths *)

(** X17: in the plain listing of a directory whose names hold no slash
    (as the names [os.listdir] returns), the base name of the path stored
    for a line is the label of the line, so [rename_file] offers the
    label shown as the name to edit. *)
Theorem plain_entry_basename (fs : filesystem) (cfg : UAConfig)
  (directory : string) (p : FilePanel) (names : list string)
  (i : nat) (label : string) :
  exists_ fs directory = true ->
  listdir fs directory = Ok names ->
  Forall (fun n => has_slash n = false) names ->
  let p' := fst (fst (update_files fs cfg directory false p)) in
  nth_error (file_listbox p') i = Some label ->
  exists path,
    nth_error (current_files p') i = Some path
    /\ path = join directory label /\ basename path = label.
Proof.
  cbv zeta. intros Hex Hls Hall. unfold update_files. rewrite Hex, Hls.
  cbn [negb fst]. set (files := sort String.leb _).
  match goal with |- context [fold_left _ files ?q] =>
    destruct (add_entries (fun file => file)
                (fun file => join directory file) files q)
      as (Hl & Hc & _) end.
  rewrite Hl, Hc, map_id. cbn [file_listbox current_files app].
  intro Hi. exists (join directory label).
  split; [rewrite nth_error_map; now rewrite Hi|].
  split; [reflexivity|]. apply basename_join.
  apply nth_error_In in Hi. unfold files in Hi.
  apply (proj1 (sort_In String.leb label _)) in Hi.
  apply filter_In in Hi. destruct Hi as [Hi _]. rewrite Forall_forall in Hall.
  now apply Hall.
Qed.

(** The theorem at the first line of [/data] of [logs_fs]. *)
Lemma plain_entry_basename_witness :
  exists path,
    nth_error
      (current_files
         (fst (fst (update_files logs_fs logs_config "/data" false
                      empty_panel)))) 0 = Some path
    /\ path = join "/data" "Movie.mkv" /\ basename path = "Movie.mkv".
Proof.
  apply (@plain_entry_basename logs_fs logs_config "/data" empty_panel
           ["show"; "Movie.mkv"] 0 "Movie.mkv" eq_refl eq_refl).
  - repeat constructor.
  - reflexivity.
Defined.

(** ** The arguments dialog *)

Lemma arg_keys_NoDup : NoDup (app ua_args boolean_args).
Proof.
  unfold ua_args, boolean_args. simpl app.
  repeat (constructor; [simpl; intuition discriminate|]). constructor.
Qed.






(** X20: [launch_upload_assistant] never starts a process and never
    renames: the dialog's constructor returns before the operator can
    answer, so its result is still unset when it is tested. With a
    non-empty entry selected the only event is the opening of the dialog
    on that entry. *)
Theorem launch_upload_assistant_only_opens_dialog (pf : platform)
  (cfg : UAConfig) (p : FilePanel) :
  filter is_process (fst (launch_upload_assistant pf cfg p)) = []
  /\ filter is_rename (fst (launch_upload_assistant pf cfg p)) = []
  /\ (forall f,
        get_selected_file p = Ok (Some f) -> truthy f = true ->
        launch_upload_assistant pf cfg p = ([OpenArgsDialog f], None)).
Proof.
  unfold launch_upload_assistant.
  destruct (get_selected_file p) as [[f|]|e].
  - cbn [no_selection]. destruct (truthy f) eqn:E; cbn.
    + repeat split. now intros f' [= <-] _.
    + repeat split. intros f' [= <-] H. congruence.
  - cbn. repeat split. intros f H. discriminate.
  - cbn. repeat split. intros f H. discriminate.
Qed.

(** The theorem at the second line of [two_files_panel]. *)
Lemma launch_upload_assistant_only_opens_dialog_witness :
  launch_upload_assistant konsole_host logs_config
    (select_index two_files_panel 1)
  = ([OpenArgsDialog "/data/show"], None).
Proof.
  apply (launch_upload_assistant_only_opens_dialog konsole_host logs_config
           (select_index two_files_panel 1)); reflexivity.
Defined.

(** ** The filter check button and the refresh *)

Lemma on_filter_change_panels (fs : filesystem) (app : App)
  (selected_path : string) :
  filter_panel (fst (fst (on_filter_change fs app selected_path)))
  = filter_panel app
  /\ config (fst (fst (on_filter_change fs app selected_path))) = config app
  /\ file_panel (fst (fst (on_filter_change fs app selected_path)))
     = fst (fst (update_files fs (config app) selected_path
                   (missing_torrents_var (filter_panel app))
                   (file_panel app))).
Proof.
  unfold on_filter_change.
  destruct (update_files fs (config app) selected_path
              (missing_torrents_var (filter_panel app)) (file_panel app))
    as [[fp evs] [e|]]; now repeat split.
Qed.

Lemma click_missing_filter_panels (fs : filesystem) (app : App) :
  let app1 := fst (fst (click_missing_filter fs app)) in
  filter_panel app1
  = {| current_path_var := current_path_var (filter_panel app);
       missing_torrents_var := negb (missing_torrents_var (filter_panel app));
       dir_tree := dir_tree (filter_panel app);
       tree_selection := tree_selection (filter_panel app) |}
  /\ config app1 = config app
  /\ file_panel app1
     = fst (fst (update_files fs (config app)
                   (get_selected_path (filter_panel app))
                   (negb (missing_torrents_var (filter_panel app)))
                   (file_panel app))).
Proof.
  cbv zeta. unfold click_missing_filter, FilterPanel_on_filter_change.
  match goal with |- context [on_filter_change fs ?a ?q] =>
    destruct (on_filter_change_panels fs a q) as (H1 & H2 & H3) end.
  rewrite H1, H2, H3. now repeat split.
Qed.

(** X21: a click on the filter check button flips the filter and lists a
    path under the new filter, leaving the tree and its selection alone.
    The path is the base path when nothing is selected in the tree, the
    first value of the selected item when it has values, and the base path
    again when it has none (the [Loading...] item). A second click puts
    the filter panel back and shows again the listing that the original
    filter gives for that path. *)
Theorem click_missing_filter_twice (fs : filesystem) (app : App) :
  let fp := filter_panel app in
  let app1 := fst (fst (click_missing_filter fs app)) in
  let app2 := fst (fst (click_missing_filter fs app1)) in
  let listed_from path :=
    fst (fst (update_files fs (config app) path
                (negb (missing_torrents_var fp)) (file_panel app))) in
  dir_tree (filter_panel app1) = dir_tree fp
  /\ tree_selection (filter_panel app1) = tree_selection fp
  /\ missing_torrents_var (filter_panel app1)
     = negb (missing_torrents_var fp)
  /\ file_panel app1 = listed_from (get_selected_path fp)
  /\ (tree_selection fp = None ->
      file_panel app1 = listed_from (current_path_var fp))
  /\ (forall item text path values children,
        tree_selection fp = Some item ->
        lookup (dir_tree fp) item
        = Some (Node text (path :: values) children) ->
        file_panel app1 = listed_from path)
  /\ (forall item text children,
        tree_selection fp = Some item ->
        lookup (dir_tree fp) item = Some (Node text [] children) ->
        file_panel app1 = listed_from (current_path_var fp))
  /\ filter_panel app2 = fp
  /\ file_panel app2
     = file_panel (fst (fst (FilterPanel_on_filter_change fs app))).
Proof.
  cbv zeta.
  destruct (click_missing_filter_panels fs app) as (Hf1 & Hc1 & Hp1).
  destruct (click_missing_filter_panels fs
              (fst (fst (click_missing_filter fs app))))
    as (Hf2 & Hc2 & Hp2).
  cbv zeta in *. rewrite Hf2, Hp2, Hc1. clear Hf2 Hp2.
  rewrite Hf1. split; [reflexivity|]. split; [reflexivity|].
  split; [reflexivity|]. split; [exact Hp1|].
  split; [|split; [|split]].
  - intro Hsel. rewrite Hp1. unfold get_selected_path. now rewrite Hsel.
  - intros item text path values children Hsel Hl. rewrite Hp1.
    unfold get_selected_path. now rewrite Hsel, Hl.
  - intros item text children Hsel Hl. rewrite Hp1.
    unfold get_selected_path. now rewrite Hsel, Hl.
  - cbn [current_path_var missing_torrents_var dir_tree tree_selection].
    rewrite negb_involutive. split; [now destruct (filter_panel app)|].
    unfold FilterPanel_on_filter_change.
    destruct (on_filter_change_panels fs app
                (get_selected_path (filter_panel app))) as (_ & _ & Hp0).
    rewrite Hp0. reflexivity.
Qed.

(** The theorem at [torrents_app], where the item of directory [a] is
    selected: the click lists [/data/torrents/a], not the base path. *)
Lemma click_missing_filter_twice_witness :
  file_panel (fst (fst (click_missing_filter torrents_fs torrents_app)))
  = fst (fst (update_files torrents_fs (config torrents_app)
                "/data/torrents/a" true (file_panel torrents_app))).
Proof.
  destruct (click_missing_filter_twice torrents_fs torrents_app)
    as (_ & _ & _ & _ & _ & H & _).
  apply (H [2%nat] "a" "/data/torrents/a" [] [placeholder]);
    reflexivity.
Defined.

(** X22: [refresh_all] rebuilds the tree from the base path, with every
    root collapsed and nothing selected, and, when that raised nothing,
    lists the file panel's directory with the filter off although the
    check button keeps its state; the status reads [Refreshed] when
    nothing was raised. If rebuilding the tree raises, the file panel is
    not touched. *)
Theorem refresh_all_outcome (fs : filesystem) (app : App) :
  let r := refresh_all fs app in
  let app1 := fst (fst r) in
  filter_panel app1 = fst (refresh_directory_tree fs (filter_panel app))
  /\ missing_torrents_var (filter_panel app1)
     = missing_torrents_var (filter_panel app)
  /\ Forall (fun n => collapsed n = true) (dir_tree (filter_panel app1))
  /\ (forall directory,
        snd (refresh_directory_tree fs (filter_panel app)) = None ->
        current_directory (file_panel app) = Some directory ->
        file_panel app1
        = fst (fst (update_files fs (config app) directory false
                      (file_panel app))))
  /\ (snd r = None -> status_var app1 = "Refreshed")
  /\ (forall e,
        snd (refresh_directory_tree fs (filter_panel app)) = Some e ->
        file_panel app1 = file_panel app /\ snd r = Some e).
Proof.
  cbv zeta. unfold refresh_all.
  assert (Hcol : Forall (fun n => collapsed n = true)
                   (dir_tree (fst (refresh_directory_tree fs
                                     (filter_panel app))))
                 /\ missing_torrents_var
                      (fst (refresh_directory_tree fs (filter_panel app)))
                    = missing_torrents_var (filter_panel app)).
  { unfold refresh_directory_tree.
    destruct (exists_ fs (current_path_var (filter_panel app)));
      [|split; [constructor|reflexivity]].
    assert (H : Forall (fun n => collapsed n = true)
                  (fst (populate_tree fs
                          (current_path_var (filter_panel app))))).
    { unfold populate_tree.
      destruct (listdir fs (current_path_var (filter_panel app)))
        as [names|e]; [|constructor].
      eapply Forall_impl; [|apply insert_items_collapsed].
      intros n (p & _ & [[Hc _]|[Hc _]]); unfold collapsed; now rewrite Hc. }
    destruct (populate_tree fs (current_path_var (filter_panel app)))
      as [ns ex]. now split. }
  destruct Hcol as [Hcol Hvar].
  destruct (refresh_directory_tree fs (filter_panel app)) as [fp [e|]].
  - cbn [fst snd filter_panel file_panel status_var] in *.
    repeat split; auto; try discriminate.
  - unfold refresh_files.
    destruct (current_directory (file_panel app)) as [d|] eqn:Ed.
    + destruct (update_files fs (config app) d false (file_panel app))
        as [[files evs] [e|]] eqn:Eu;
        cbn [fst snd filter_panel file_panel status_var] in *;
        repeat split; auto; try discriminate;
        intros d' _ [= <-]; now rewrite Eu.
    + cbn [fst snd filter_panel file_panel status_var] in *.
      repeat split; auto; discriminate.
Qed.

(** The theorem at [filtered_app]: after the refresh the plain listing of
    [/data] is shown while the filter stays ticked. *)
Lemma refresh_all_outcome_witness :
  file_listbox (file_panel (fst (fst (refresh_all logs_fs filtered_app))))
  = ["Movie.mkv"; "show"]
  /\ missing_torrents_var
       (filter_panel (fst (fst (refresh_all logs_fs filtered_app)))) = true.
Proof.
  destruct (refresh_all_outcome logs_fs filtered_app)
    as (_ & Hvar & _ & Hfiles & _).
  split.
  - rewrite (Hfiles "/data" eq_refl eq_refl). reflexivity.
  - rewrite Hvar. reflexivity.
Defined.
